(** * TextToWavCLI: BASIC text to Kansas City Standard audio

    A shallow embedding of [TextToWavCLI.py] and the proofs of the
    properties its specification states.

    Part I is the program, in the order of the source file: the Python
    built-ins it calls (module [Py]), the module globals and
    [make_square_wave], the record builder ([Extract_Number_String],
    [Create_BinData]), the frame encoder ([Encode_Data]) and the stream
    assembler ([Write_Wav]) over a store of [bytearray] objects and a file
    system of WAV files, and the script that drives them.

    Part II is the vocabulary of the specification: ByteGroups, records,
    size header, pulses and parity.

    Part III is the theory: what the program computes, and the properties
    the specification states of it. *)

From Stdlib Require Import ZArith Lia String Ascii.
From stdpp Require Import base option list gmap strings.

Local Open Scope Z_scope.

(** * Part I: the program *)

(** ** Exceptions

    The program catches nothing: an exception aborts the call that raised
    it and every caller.  [result] is the error monad of such calls. *)

Inductive exn : Set :=
  | UnicodeEncodeError
  | KeyError
  | ValueError
  | ZeroDivisionError
  | NameError
  | WaveError.

Inductive result (A : Type) : Type :=
  | Ok (a : A)
  | Raise (e : exn).
Arguments Ok {A} a.
Arguments Raise {A} e.

Definition rbind {A B} (m : result A) (k : A -> result B) : result B :=
  match m with
  | Ok a => k a
  | Raise e => Raise e
  end.

Declare Scope result_scope.
Delimit Scope result_scope with result.
Notation "x <~ m ; k" := (rbind m (fun x => k))
  (at level 20, m at level 100, k at level 200, only parsing) : result_scope.

(** ** Python built-ins *)

Module Py.

(** A [str] is a sequence of Unicode code points. *)
Definition str := list Z.

(** A [bytes] or [bytearray] value is a sequence of integers in [0, 256). *)
Definition bytes := list Z.

(** ASCII literals, for readable statements. *)
Definition lit (s : string) : str :=
  map (fun a => Z.of_nat (nat_of_ascii a)) (list_ascii_of_string s).

(** The characters the program names. *)
Definition LF : Z := 10.
Definition CR : Z := 13.
Definition chr0 : Z := 48.
Definition chr1 : Z := 49.

(** [bin(n)]: sign, the prefix [0b], binary digits most significant first. *)
Fixpoint bin_pos (p : positive) (acc : str) : str :=
  match p with
  | xH => chr1 :: acc
  | xO q => bin_pos q (chr0 :: acc)
  | xI q => bin_pos q (chr1 :: acc)
  end.

Definition bin (n : Z) : str :=
  match n with
  | Z0 => lit "0b0"
  | Zpos p => lit "0b" ++ bin_pos p []
  | Zneg p => lit "-0b" ++ bin_pos p []
  end.

(** [s.zfill(width)]: zeros on the left, after a leading sign if any. *)
Definition zfill (width : nat) (s : str) : str :=
  let fill := repeat chr0 (width - length s) in
  match s with
  | c :: s' => if (c =? 43) || (c =? 45) then c :: fill ++ s' else fill ++ s
  | [] => fill
  end.

(** [s.split('\n')]: never empty; the last field is what follows the last
    separator. *)
Fixpoint split (sep : Z) (s : str) : list str :=
  match s with
  | [] => [[]]
  | c :: s' =>
      if c =? sep then [] :: split sep s'
      else match split sep s' with
           | f :: fs => (c :: f) :: fs
           | [] => [[c]]
           end
  end.

(** [str.isspace] for one character: the code points the interpreter
    treats as whitespace (bidirectional class WS, B or S, or category Zs). *)
Definition isspace (c : Z) : bool :=
  ((9 <=? c) && (c <=? 13)) || ((28 <=? c) && (c <=? 32))
  || (c =? 133) || (c =? 160) || (c =? 5760)
  || ((8192 <=? c) && (c <=? 8202))
  || (c =? 8232) || (c =? 8233) || (c =? 8239) || (c =? 8287) || (c =? 12288).

(** [s.lstrip()] *)
Fixpoint lstrip (s : str) : str :=
  match s with
  | c :: s' => if isspace c then lstrip s' else s
  | [] => []
  end.

(** [s.encode('utf-8')].  A [str] may hold a lone surrogate, which has no
    UTF-8 form: the encoder raises.  Integers outside the code space are
    not characters at all and are refused in the same way. *)
Definition encode_char (c : Z) : result bytes :=
  if (c <? 0) then Raise UnicodeEncodeError
  else if c <? 128 then Ok [c]
  else if c <? 2048 then
    Ok [Z.lor 192 (Z.shiftr c 6); Z.lor 128 (Z.land c 63)]
  else if c <? 65536 then
    if (55296 <=? c) && (c <=? 57343) then Raise UnicodeEncodeError
    else Ok [Z.lor 224 (Z.shiftr c 12);
             Z.lor 128 (Z.land (Z.shiftr c 6) 63);
             Z.lor 128 (Z.land c 63)]
  else if c <? 1114112 then
    Ok [Z.lor 240 (Z.shiftr c 18);
        Z.lor 128 (Z.land (Z.shiftr c 12) 63);
        Z.lor 128 (Z.land (Z.shiftr c 6) 63);
        Z.lor 128 (Z.land c 63)]
  else Raise UnicodeEncodeError.

Fixpoint encode_utf8 (s : str) : result bytes :=
  match s with
  | [] => Ok []
  | c :: s' =>
      (b <~ encode_char c; bs <~ encode_utf8 s'; Ok (b ++ bs))%result
  end.

(** The text of a file opened with [encoding='utf-8'] holds Unicode scalar
    values only: the decoder refuses everything else. *)
Definition scalar (c : Z) : Prop :=
  0 <= c < 1114112 /\ ~ (55296 <= c <= 57343).

(** The decimal digits of the interpreter's Unicode database: the
    characters the regular expression class [\d] matches and [int]
    converts, with their values.  The table belongs to the interpreter,
    not to the program; the program is verified for every table that
    gives the ASCII digits their values. *)
Class UnicodeDecimal := {
  decimal : Z -> option Z;
  decimal_ascii : forall c, 48 <= c <= 57 -> decimal c = Some (c - 48);
  decimal_range : forall c d, decimal c = Some d -> 0 <= d <= 9
}.

Section Unicode.
Context `{UnicodeDecimal}.

(** [int(s)] on the strings the program converts: a run of decimal digits
    (a label) or one character (a bit).  Python also accepts surrounding
    whitespace, a sign and underscores between digits; neither kind of
    argument can hold them, and a lone such character is refused.  The
    integers are unbounded; the interpreter's optional limit on the number
    of digits of a numeral is taken as switched off. *)
Fixpoint int_acc (acc : Z) (s : str) : result Z :=
  match s with
  | [] => Ok acc
  | c :: s' =>
      match decimal c with
      | Some d => int_acc (10 * acc + d) s'
      | None => Raise ValueError
      end
  end.

Definition int (s : str) : result Z :=
  match s with
  | [] => Raise ValueError
  | _ => int_acc 0 s
  end.

(** The greedy group [(\d+)] without its lower bound: the longest run of
    decimal digits at the front, and what follows it. *)
Fixpoint re_digits (s : str) : str * str :=
  match s with
  | c :: s' =>
      match decimal c with
      | Some _ => let '(ds, r) := re_digits s' in (c :: ds, r)
      | None => ([], s)
      end
  | [] => ([], [])
  end.

(** The second group, any characters: every character up to the first
    line feed, which the dot does not match. *)
Fixpoint re_dots (s : str) : str :=
  match s with
  | c :: s' => if c =? LF then [] else c :: re_dots s'
  | [] => []
  end.

(** [re.match] of the pattern: a run of at least one decimal digit at the
    start, then any characters; the two groups. *)
Definition re_match (text : str) : option (str * str) :=
  let '(ds, r) := re_digits text in
  match ds with
  | [] => None
  | _ => Some (ds, re_dots r)
  end.

End Unicode.

(** The ASCII digits alone: the least table, and the one that decides
    every input written in ASCII. *)
Definition ascii_decimal (c : Z) : option Z :=
  if (48 <=? c) && (c <=? 57) then Some (c - 48) else None.

Definition ascii_digits : UnicodeDecimal.
Proof.
  refine {| decimal := ascii_decimal |}.
  - intros c Hc. unfold ascii_decimal.
    destruct (Z.leb_spec 48 c), (Z.leb_spec c 57); simpl; (reflexivity || lia).
  - intros c d. unfold ascii_decimal.
    destruct (Z.leb_spec 48 c), (Z.leb_spec c 57); simpl; intros [= <-]; lia.
Defined.

End Py.

Import Py.

(** ** Module globals *)

Record globals := {
  FRAMERATE : Z;   (* Hz *)
  ONES_FREQ : Z;   (* Hz (per KCS) *)
  ZERO_FREQ : Z;   (* Hz (per KCS) *)
  AMPLITUDE : Z;   (* Amplitude of generated square waves *)
  CENTER : Z;      (* Center point of generated waves *)
  LEADER : Z;      (* Default seconds for leader *)
  PARITY : Z;      (* Parity 0 = Odd, 1 = Even *)
  STARTBIT : Z     (* Start Bit *)
}.

Definition defaults : globals :=
  {| FRAMERATE := 22050; ONES_FREQ := 2400; ZERO_FREQ := 800;
     AMPLITUDE := 225; CENTER := 128; LEADER := 14;
     PARITY := 0; STARTBIT := 0 |}.

(** ** Waveform pulse generator *)

(** [int(a/b/2)]: true division, then truncation toward zero.  The float
    quotient is modelled by the exact one; the two agree on integers below
    2^53, far above any frequency or sample rate. *)
Definition int_half_quotient (a b : Z) : result Z :=
  if b =? 0 then Raise ZeroDivisionError else Ok (Z.quot a (2 * b)).

(** [bytearray([v])]: one byte, which must be in [range(256)]. *)
Definition bytearray1 (v : Z) : result bytes :=
  if (0 <=? v) && (v <? 256) then Ok [v] else Raise ValueError.

(** [b * n] on a sequence: empty when [n] is not positive. *)
Definition seq_mul {A} (b : list A) (n : Z) : list A :=
  concat (repeat b (Z.to_nat n)).

(* Create a single square wave cycle of a given frequency *)
Definition make_square_wave (g : globals) (freq framerate : Z) : result bytes :=
  (n <~ int_half_quotient framerate freq;
   lo <~ bytearray1 (CENTER g - AMPLITUDE g / 2);
   hi <~ bytearray1 (CENTER g + AMPLITUDE g / 2);
   Ok (seq_mul lo n ++ seq_mul hi n))%result.

(** ** Record builder *)

(** [for x in xs: body], threading the loop's variables through a body
    that may raise. *)
Fixpoint for_in {St I} (xs : list I) (body : St -> I -> result St) (s : St)
  : result St :=
  match xs with
  | [] => Ok s
  | x :: xs' => (s' <~ body s x; for_in xs' body s')%result
  end.

(** [d[k]] on a dict *)
Definition getitem {V} (d : gmap nat V) (k : nat) : result V :=
  match d !! k with
  | Some v => Ok v
  | None => Raise KeyError
  end.

(** [range(n)] *)
Definition range (n : nat) : list nat := seq 0 n.

Section RecordBuilder.
Context `{UnicodeDecimal}.

Definition Extract_Number_String (text : str) : result (option Z * str) :=
  match re_match text with
  | Some (number_str, remaining_str) =>
      (n <~ int number_str; Ok (Some n, lstrip remaining_str))%result
  | None => Ok (None, text)
  end.

(** One ByteGroup string: [bin(v)[2:].zfill(width)]. *)
Definition bits (width : nat) (v : Z) : str := zfill width (drop 2 (bin v)).

(** The body of the loop over the lines: the new [code_array]. *)
Definition line_body (indexed_data : gmap nat str) (code_array : list str)
    (i : nat) : result (list str) :=
  (seg <~ getitem indexed_data i;
   r <~ Extract_Number_String seg;
   let '(label, code) := r in
   match label with
   | None => Ok code_array   (* continue *)
   | Some label =>
       let code := code ++ [CR] in
       byte_code <~ encode_utf8 code;
       let label_byte := bits 16 label in
       let code_array := code_array ++ [take 8 label_byte] in
       let code_array := code_array ++ [drop 8 label_byte] in
       for_in byte_code (fun code_array byte => Ok (code_array ++ [bits 8 byte]))
         code_array
   end)%result.

(** [Create_BinData] from [text_content], the text [file.read()] returned:
    the file decoded as UTF-8, its line ends already translated to line
    feeds. *)
Definition Create_BinData (text_content : str) : result (list str) :=
  (let text_segment := split LF text_content in
   let indexed_data : gmap nat str := map_seq 0 text_segment in
   let byte_size := 0 in
   let code_array := [] in
   let start_array := [] in
   code_array <~ for_in (range (size indexed_data)) (line_body indexed_data)
                   code_array;
   let byte_size := Z.of_nat (length code_array) in
   let code_array := code_array ++ [bits 8 0] in
   let start := bits 16 (byte_size + 256) in
   let start_array := start_array ++ [take 8 start] in
   let start_array := start_array ++ [drop 8 start] in
   let binary_array := [] in
   let binary_array := binary_array ++ start_array in
   let binary_array := binary_array ++ code_array in
   Ok binary_array)%result.

End RecordBuilder.

(** ** Objects and files

    [one_pulse] and [zero_pulse] are module globals bound to [bytearray]
    objects, which are mutable and shared by reference.  The store holds
    every [bytearray] by address; a WAV file is what the [wave] writer put
    under its path. *)

Definition loc := nat.

Record wave_file := {
  nchannels : Z;
  sampwidth : Z;
  framerate : Z;
  frames : bytes
}.

Record state := {
  store : list bytes;
  files : gmap string wave_file
}.

Definition prog (A : Type) : Type := state -> result (A * state).

Definition ret {A} (a : A) : prog A := fun s => Ok (a, s).

Definition bind {A B} (m : prog A) (k : A -> prog B) : prog B :=
  fun s => match m s with
           | Ok (a, s') => k a s'
           | Raise e => Raise e
           end.

Definition lift {A} (r : result A) : prog A :=
  fun s => match r with
           | Ok a => Ok (a, s)
           | Raise e => Raise e
           end.

Declare Scope prog_scope.
Delimit Scope prog_scope with prog.
Notation "x <- m ;; k" := (bind m (fun x => k))
  (at level 20, m at level 99, k at level 200, only parsing) : prog_scope.
Notation "m ;; k" := (bind m (fun _ => k))
  (at level 100, k at level 200, only parsing, right associativity) : prog_scope.

(** [for x in xs: body] with effects on the state. *)
Fixpoint for_each {St I} (xs : list I) (body : St -> I -> prog St) (s : St)
  : prog St :=
  match xs with
  | [] => ret s
  | x :: xs' => (s' <- body s x ;; for_each xs' body s')%prog
  end.

(** [bytearray(b)] and every other expression that builds a [bytearray]:
    a fresh object. *)
Definition new_bytearray (b : bytes) : prog loc :=
  fun s => Ok (length (store s),
               {| store := store s ++ [b]; files := files s |}).

(** The value of the object at an address. *)
Definition read (l : loc) : prog bytes :=
  fun s => match store s !! l with
           | Some b => Ok (b, s)
           | None => Raise NameError
           end.

(** [dst.extend(src)]: [dst] changes in place. *)
Definition extend (dst src : loc) : prog unit :=
  (b <- read src ;;
   d <- read dst ;;
   fun s => Ok (tt, {| store := <[dst := d ++ b]> (store s);
                       files := files s |}))%prog.

(** The module once imported: the tunables, and the two pulses. *)
Record module := {
  vars : globals;
  one_pulse : loc;
  zero_pulse : loc
}.

(* Create the wave patterns that encode 1s and 0s *)
Definition import : prog module :=
  (let g := defaults in
   one <- lift (make_square_wave g (ONES_FREQ g) (FRAMERATE g)) ;;
   one_pulse <- new_bytearray one ;;
   zero <- lift (make_square_wave g (ZERO_FREQ g) (FRAMERATE g)) ;;
   zero_pulse <- new_bytearray zero ;;
   ret {| vars := g; one_pulse := one_pulse; zero_pulse := zero_pulse |})%prog.

Definition is_even (number : Z) : bool := number mod 2 =? 0.

(** [b == 0] for a [bool]: [False] equals [0], [True] does not. *)
Definition bool_eq_int (b : bool) (n : Z) : bool := Z.b2z b =? n.

(** ** Frame encoder *)

Section Encoder.
Context `{UnicodeDecimal}.
Variable m : module.

(* Take a single byte value and turn it into a bytearray representing
   the associated waveform along with the required start and stop bits. *)
Definition Encode_Data (bytes : str) : prog loc :=
  ((* The start bit (0 or 1) *)
   encoded <- (if STARTBIT (vars m) =? 0
               then (z <- read (zero_pulse m) ;; new_bytearray z)
               else (o <- read (one_pulse m) ;; new_bytearray o)) ;;
   let p := 0 in
   (* 8 data bits *)
   p <- for_each bytes
          (fun p bit =>
             v <- lift (int [bit]) ;;
             if v =? 1
             then (extend encoded (one_pulse m) ;; ret (p + 1))
             else (extend encoded (zero_pulse m) ;; ret p))
          p ;;
   (* add parity *)
   (if PARITY (vars m) =? 0
    then if (p =? 0) || is_even p
         then extend encoded (one_pulse m)
         else extend encoded (zero_pulse m)
    else if bool_eq_int (is_even p) 0
         then extend encoded (one_pulse m)
         else extend encoded (zero_pulse m)) ;;
   ret encoded)%prog.

(** ** Stream assembler *)

(** [int(a/b)]: true division, then truncation toward zero. *)
Definition int_quotient (a b : Z) : result Z :=
  if b =? 0 then Raise ZeroDivisionError else Ok (Z.quot a b).

(** The [wave] writer, by the path of the file it writes. *)
Definition wave_open (path : string) : prog string :=
  fun s => Ok (path, {| store := store s;
                        files := <[path := {| nchannels := 0; sampwidth := 0;
                                              framerate := 0; frames := [] |}]>
                                   (files s) |}).

Definition wave_update (w : string) (f : wave_file -> wave_file) : prog unit :=
  fun s => match files s !! w with
           | Some wf => Ok (tt, {| store := store s;
                                   files := <[w := f wf]> (files s) |})
           | None => Raise WaveError
           end.

Definition setnchannels (w : string) (n : Z) : prog unit :=
  if n <? 1 then lift (Raise WaveError)
  else wave_update w (fun wf =>
         {| nchannels := n; sampwidth := sampwidth wf;
            framerate := framerate wf; frames := frames wf |}).

Definition setsampwidth (w : string) (n : Z) : prog unit :=
  if (n <? 1) || (4 <? n) then lift (Raise WaveError)
  else wave_update w (fun wf =>
         {| nchannels := nchannels wf; sampwidth := n;
            framerate := framerate wf; frames := frames wf |}).

Definition setframerate (w : string) (r : Z) : prog unit :=
  if r <=? 0 then lift (Raise WaveError)
  else wave_update w (fun wf =>
         {| nchannels := nchannels wf; sampwidth := sampwidth wf;
            framerate := r; frames := frames wf |}).

(** One channel of one-byte samples: every byte written is a frame. *)
Definition writeframes (w : string) (data : bytes) : prog unit :=
  wave_update w (fun wf =>
    {| nchannels := nchannels wf; sampwidth := sampwidth wf;
       framerate := framerate wf; frames := frames wf ++ data |}).

Definition wave_close (w : string) : prog unit := ret tt.

(* Write a WAV file with encoded data. leader and trailer specify the
   number of seconds of carrier signal to encode before and after the data *)
Definition Write_Wav (TargetFile : string) (Binary_Data : list str)
  : prog unit :=
  (w <- wave_open TargetFile ;;
   setnchannels w 1 ;;
   setsampwidth w 1 ;;
   setframerate w (FRAMERATE (vars m)) ;;
   (* Write the leader *)
   one <- read (one_pulse m) ;;
   n <- lift (int_quotient (FRAMERATE (vars m)) (Z.of_nat (length one))) ;;
   writeframes w (seq_mul one (n * LEADER (vars m))) ;;
   (* Encode the actual data *)
   for_each Binary_Data
     (fun _ byte =>
        e <- Encode_Data byte ;;
        b <- read e ;;
        writeframes w b)
     tt ;;
   for_each (range 3)
     (fun _ x => z <- read (zero_pulse m) ;; writeframes w z)
     tt ;;
   wave_close w)%prog.

End Encoder.

(** ** The script *)

(** What the user answers at the prompts. *)
Record answers := {
  ans_ONES_FREQ : Z;
  ans_ZERO_FREQ : Z;
  ans_FRAMERATE : Z;
  ans_AMPLITUDE : Z;
  ans_LEADER : Z;
  ans_STARTBIT : Z;
  ans_PARITY : Z;
  ans_proceed : bool
}.

(** The prompts rebind the tunables.  The pulses were built when the
    module body ran, before any prompt, and are not built again. *)
Definition configure (m : module) (a : answers) : module :=
  {| vars := {| FRAMERATE := ans_FRAMERATE a;
                ONES_FREQ := ans_ONES_FREQ a;
                ZERO_FREQ := ans_ZERO_FREQ a;
                AMPLITUDE := ans_AMPLITUDE a;
                CENTER := CENTER (vars m);
                LEADER := ans_LEADER a;
                PARITY := ans_PARITY a;
                STARTBIT := ans_STARTBIT a |};
     one_pulse := one_pulse m;
     zero_pulse := zero_pulse m |}.

(** The script: the module body, the prompts, then one WAV file per source
    file.  A source is the base name of a text file and the text it holds;
    directories, console output and tagging are left to their
    libraries. *)
Definition main `{UnicodeDecimal} (a : answers) (sources : list (string * str))
  : prog unit :=
  (m <- import ;;
   let m := configure m a in
   if ans_proceed a
   then for_each sources
          (fun _ source =>
             let FileName := source.1 in
             let TargetFile := (FileName +:+ ".wav")%string in
             Binary_Data <- lift (Create_BinData source.2) ;;
             Write_Wav m TargetFile Binary_Data)
          tt
   else ret tt)%prog.

(** The state before the module is imported. *)
Definition boot : state := {| store := []; files := ∅ |}.

(** * Part II: the specification

    What the specification calls a ByteGroup, and how a reader decodes
    one. *)

Definition bitchar (b : bool) : Z := if b then chr1 else chr0.

(** The [w] low bits of [v] as binary digits, most significant first. *)
Fixpoint msb_first (w : nat) (v : Z) : str :=
  match w with
  | O => []
  | S w' => bitchar (Z.testbit v (Z.of_nat w')) :: msb_first w' v
  end.

(** The ByteGroup of an 8-bit value. *)
Definition byte_group (v : Z) : str := msb_first 8 v.

Definition binary (c : Z) : Prop := c = chr0 \/ c = chr1.

(** A ByteGroup: exactly 8 binary digits. *)
Definition ByteGroup (g : str) : Prop := length g = 8%nat /\ Forall binary g.

(** The number a string of binary digits denotes. *)
Definition group_value (g : str) : Z :=
  foldl (fun acc c => 2 * acc + (c - chr0)) 0 g.

(** Two ByteGroups read as a big-endian 16-bit value. *)
Definition be16 (hi lo : str) : Z := 256 * group_value hi + group_value lo.

(** The number of binary digits [bin] prints. *)
Definition width (v : Z) : nat :=
  match v with
  | Z0 => 1
  | Zpos p | Zneg p => Pos.size_nat p
  end.

(** A byte. *)
Definition byte (b : Z) : Prop := 0 <= b < 256.

(** ** Records *)

Section Records.
Context `{UnicodeDecimal}.

(** The value of a run of decimal digits. *)
Definition number (ds : str) : Z :=
  foldl (fun acc c => 10 * acc + default 0 (decimal c)) 0 ds.

(** The label of a line: its leading run of decimal digits, if any, read
    as an unsigned integer. *)
Definition label (line : str) : option Z :=
  match re_digits line with
  | ([], _) => None
  | (ds, _) => Some (number ds)
  end.

(** The text of a body: the remainder of the line, left-trimmed, with a
    carriage return appended. *)
Definition body (line : str) : str :=
  lstrip (re_digits line).2 ++ [CR].

(** UTF-8, where it is defined. *)
Definition utf8 (s : str) : bytes :=
  match encode_utf8 s with
  | Ok b => b
  | Raise _ => []
  end.

(** The ByteGroups of a Record: the 16-bit label, high byte first, then
    the bytes of the body. *)
Definition spec_record (line : str) : list str :=
  match label line with
  | None => []
  | Some n => [byte_group (n / 256); byte_group n]
                ++ map byte_group (utf8 (body line))
  end.

(** The number of ByteGroups of the Record of a line. *)
Definition group_count (line : str) : nat :=
  match label line with
  | None => 0
  | Some _ => 2 + length (utf8 (body line))
  end.

(** N: the label and body ByteGroups of all the lines of a text. *)
Definition data_count (text : str) : Z :=
  Z.of_nat (list_sum (map group_count (split LF text))).

(** Every parsed label is at most 65535. *)
Definition labels_fit (text : str) : Prop :=
  Forall (fun line => forall n, label line = Some n -> n <= 65535)
    (split LF text).

(** ** The builder as a function of the lines *)

(** What one line adds to [code_array]. *)
Definition record (line : str) : result (list str) :=
  (r <~ Extract_Number_String line;
   match r with
   | (None, _) => Ok []
   | (Some label, code) =>
       byte_code <~ encode_utf8 (code ++ [CR]);
       Ok ([take 8 (bits 16 label); drop 8 (bits 16 label)]
             ++ map (bits 8) byte_code)
   end)%result.

Fixpoint records (lines : list str) : result (list str) :=
  match lines with
  | [] => Ok []
  | l :: ls => (r <~ record l; rs <~ records ls; Ok (r ++ rs))%result
  end.

(** The frame around the data: size header in front, terminator behind. *)
Definition frame (data : list str) : list str :=
  let start := bits 16 (Z.of_nat (length data) + 256) in
  [take 8 start; drop 8 start] ++ data ++ [bits 8 0].

(** What the loop appends for a line whose body can be encoded. *)
Definition groups (line : str) : list str :=
  match label line with
  | None => []
  | Some n => [take 8 (bits 16 n); drop 8 (bits 16 n)]
                ++ map (bits 8) (utf8 (body line))
  end.

End Records.

(** [sep.join(ls)] *)
Fixpoint join (sep : Z) (ls : list str) : str :=
  match ls with
  | [] => []
  | l :: ls' =>
      match ls' with
      | [] => l
      | _ => l ++ sep :: join sep ls'
      end
  end.

(** ** Frames *)

Section Frames.
Variable m : module.
Variables one zero : bytes.

(** The pulse of a bit, and the samples of a sequence of bits. *)
Definition pulse (b : bool) : bytes := if b then one else zero.
Definition render (bs : list bool) : bytes := flat_map pulse bs.

(** The number of bits that are 1. *)
Definition popcount (bs : list bool) : Z :=
  foldr (fun b n => Z.b2z b + n) 0 bs.

(** The parity bit of the specification: in odd mode 1 when the count of
    1 bits is even, in even mode 1 when it is odd. *)
Definition spec_parity (mode p : Z) : bool :=
  if mode =? 0 then Z.even p else Z.odd p.

(** The bit a binary digit stands for. *)
Definition bit_of (c : Z) : bool := c =? chr1.

(** The samples of the frame of a string of binary digits. *)
Definition frame_of (g : str) : bytes :=
  render (negb (STARTBIT (vars m) =? 0)
            :: map bit_of g
            ++ [spec_parity (PARITY (vars m)) (popcount (map bit_of g))]).

(** The two pulses are where the module left them. *)
Definition loaded (st : list bytes) : Prop :=
  st !! one_pulse m = Some one /\ st !! zero_pulse m = Some zero.

(** The data bits of an 8-bit value, most significant first. *)
Definition data_bits (v : Z) : list bool :=
  map (Z.testbit v) [7; 6; 5; 4; 3; 2; 1; 0].

(** The leader: the one pulse, [floor(rate / length) * seconds] times. *)
Definition leader_count : Z :=
  FRAMERATE (vars m) / Z.of_nat (length one) * LEADER (vars m).

End Frames.

(** ** Deciding the hypotheses on a given input *)

Definition scalarb (c : Z) : bool :=
  (0 <=? c) && (c <? 1114112) && negb ((55296 <=? c) && (c <=? 57343)).

Definition label_fitsb `{UnicodeDecimal} (line : str) : bool :=
  match label line with
  | Some n => n <=? 65535
  | None => true
  end.

Definition binaryb (c : Z) : bool := (c =? chr0) || (c =? chr1).

(** Whether a run ended normally and left a WAV file of the given rate
    and number of samples under the path. *)
Definition wrote (r : result (unit * state)) (path : string) (rate : Z)
    (samples : Z) : bool :=
  match r with
  | Ok (_, s) =>
      match files s !! path with
      | Some wf =>
          (framerate wf =? rate) && (Z.of_nat (length (frames wf)) =? samples)
      | None => false
      end
  | Raise _ => false
  end.

(** ** Inputs of the concrete runs *)

(** The module as imported, and the pulses it built. *)
Definition module0 : module :=
  {| vars := defaults; one_pulse := 0%nat; zero_pulse := 1%nat |}.
Definition one0 : bytes := repeat 16 4 ++ repeat 240 4.
Definition zero0 : bytes := repeat 16 13 ++ repeat 240 13.

(** Two labelled lines around a comment. *)
Definition program : str :=
  lit "10 PRINT HI" ++ [LF] ++ lit "REM none" ++ [LF] ++ lit "20   END".

(** One line, labelled 1, of 65277 letters: 65280 data groups. *)
Definition long_line (c : Z) : str :=
  lit "1" ++ replicate (Z.to_nat 65277) c.

(** The binary data of a text without a labelled line. *)
Definition no_records : list str :=
  [lit "00000001"; lit "00000000"; lit "00000000"].

(** ** The range of the model

    The program above is the source with three of its libraries taken at
    their plain meaning: the quotient of two integers is the exact one
    where the source divides in floating point, [int] converts a run of
    digits of any length, and the [wave] writer takes any rate and any
    number of samples.  The hypotheses below name the inputs on which the
    interpreter and the library do the same.  What the script does around
    the conversion of a text (paths and directories, opening and decoding
    the source, tags) is no part of [main]: what is proved of it is proved
    of texts already read. *)

(** The source divides in floating point and the WAV header holds the
    frame rate in 32 bits: below 2^32 the float quotient is the exact one
    and the rate fits its field. *)
Definition fits32 (x : Z) : Prop := Z.abs x < 2 ^ 32.

(** The samples [Write_Wav] is to write: leader, frames, trailer. *)
Definition stream (m : module) (one zero : bytes) (data : list str) : bytes :=
  concat (repeat one (Z.to_nat (leader_count m one)))
  ++ flat_map (frame_of m one zero) data
  ++ zero ++ zero ++ zero.

(** What the [wave] writer can write: its header holds the frame rate in
    a 32-bit field, and the number of samples plus the 36 bytes of header
    before them in another.  With a one pulse within 32 bits as well, the
    leader count of the source is the exact quotient. *)
Definition fits_wav (m : module) (one zero : bytes) (data : list str) : Prop :=
  fits32 (FRAMERATE (vars m))
  /\ fits32 (Z.of_nat (length one))
  /\ Z.of_nat (length (stream m one zero data)) + 36 < 2 ^ 32.

Definition fits_wavb (m : module) (one zero : bytes) (data : list str) : bool :=
  (Z.abs (FRAMERATE (vars m)) <? 2 ^ 32)
  && (Z.of_nat (length one) <? 2 ^ 32)
  && (leader_count m one * Z.of_nat (length one)
      + Z.of_nat (length (flat_map (frame_of m one zero) data))
      + 3 * Z.of_nat (length zero) + 36 <? 2 ^ 32).

(** The interpreter may limit the number of digits [int] converts, to 640
    at the least: a run of at most 640 digits is converted under every
    setting. *)
Definition short_label `{UnicodeDecimal} (line : str) : Prop :=
  (length (re_digits line).1 <= 640)%nat.

Definition short_labels `{UnicodeDecimal} (text : str) : Prop :=
  Forall short_label (split LF text).

Definition short_labelb `{UnicodeDecimal} (line : str) : bool :=
  (length (re_digits line).1 <=? 640)%nat.

(** ** The receiving end *)

(** What a receiver is doing between two bytes: waiting for the high byte
    of a label, for its low byte, or reading a body up to its carriage
    return. *)
Inductive receiving : Type :=
  | LabelHigh
  | LabelLow (high : Z)
  | Body (label : Z) (read : list Z).

(** The records a receiver reads in a sequence of data bytes: each one a
    label, two bytes big-endian, and the bytes of a body before its
    carriage return.  [None] when the bytes end inside a record. *)
Fixpoint receive (state : receiving) (data : list Z)
  : option (list (Z * list Z)) :=
  match data with
  | [] =>
      match state with
      | LabelHigh => Some []
      | _ => None
      end
  | b :: data' =>
      match state with
      | LabelHigh => receive (LabelLow b) data'
      | LabelLow high => receive (Body (256 * high + b) []) data'
      | Body label read =>
          if b =? CR
          then option_map (cons (label, rev read)) (receive LabelHigh data')
          else receive (Body label (b :: read)) data'
      end
  end.

(** The listing of a text: the label and the statement of every labelled
    line, in order. *)
Definition listing `{UnicodeDecimal} (text : str) : list (Z * str) :=
  omap (fun line =>
          match label line with
          | Some n => Some (n, lstrip (re_digits line).2)
          | None => None
          end)
    (split LF text).

(** ** Square waves *)

(** A square wave of [n] low samples, then [n] high samples. *)
Definition square (lo hi : Z) (n : nat) : list Z :=
  repeat lo n ++ repeat hi n.

(** ** Digits as bits *)

(** The bit [Encode_Data] reads in a character: 1 when [int] gives 1, and
    0 for every other decimal digit. *)
Definition digit_bit `{UnicodeDecimal} (c : Z) : bool :=
  match decimal c with
  | Some d => d =? 1
  | None => false
  end.

(** * Part III: the theory *)

(** ** Binary numerals *)

Lemma bitchar_binary b : binary (bitchar b).
Proof. destruct b; [right | left]; reflexivity. Qed.

Lemma msb_first_length w v : length (msb_first w v) = w.
Proof. induction w; simpl; congruence. Qed.

Lemma msb_first_binary w v : Forall binary (msb_first w v).
Proof. induction w; simpl; constructor; auto using bitchar_binary. Qed.

Lemma msb_first_snoc w v :
  msb_first (S w) v = msb_first w (v / 2) ++ [bitchar (Z.odd v)].
Proof.
  induction w as [|w IH].
  - cbn [msb_first app Z.of_nat]. now rewrite Z.bit0_odd.
  - change (msb_first (S (S w)) v)
      with (bitchar (Z.testbit v (Z.of_nat (S w))) :: msb_first (S w) v).
    rewrite IH. cbn [msb_first app]. do 2 f_equal.
    rewrite <- Z.div2_div, Z.div2_spec, Z.shiftr_spec by lia.
    f_equal. lia.
Qed.

Lemma msb_first_app a b v :
  msb_first (a + b) v = msb_first a (Z.shiftr v (Z.of_nat b)) ++ msb_first b v.
Proof.
  induction a as [|a IH]; simpl; [reflexivity|].
  rewrite IH, Z.shiftr_spec by lia. do 3 f_equal. lia.
Qed.

Lemma msb_first_small k n v :
  0 <= v < 2 ^ Z.of_nat n ->
  msb_first (k + n) v = repeat chr0 k ++ msb_first n v.
Proof.
  intros Hv. rewrite msb_first_app. f_equal.
  rewrite Z.shiftr_div_pow2, Z.div_small by lia.
  clear. induction k; simpl; [reflexivity|].
  now rewrite Z.testbit_0_l, IHk.
Qed.

Lemma bin_pos_acc p acc : bin_pos p acc = bin_pos p [] ++ acc.
Proof.
  revert acc. induction p as [p IH|p IH|]; intros acc; simpl.
  - rewrite IH, (IH [chr1]), <- app_assoc. reflexivity.
  - rewrite IH, (IH [chr0]), <- app_assoc. reflexivity.
  - reflexivity.
Qed.

Lemma bin_pos_msb_first p :
  bin_pos p [] = msb_first (Pos.size_nat p) (Zpos p).
Proof.
  induction p as [p IH|p IH|].
  - cbn [bin_pos Pos.size_nat]. rewrite bin_pos_acc, IH, msb_first_snoc.
    f_equal.
    change (Z.pos p~1) with (2 * Z.pos p + 1).
    f_equal. rewrite Z.mul_comm, Z.div_add_l by lia.
    change (1 / 2) with 0. lia.
  - cbn [bin_pos Pos.size_nat]. rewrite bin_pos_acc, IH, msb_first_snoc.
    f_equal.
    change (Z.pos p~0) with (2 * Z.pos p).
    f_equal. rewrite Z.mul_comm, Z.div_mul by lia. reflexivity.
  - reflexivity.
Qed.

Lemma width_pos v : (1 <= width v)%nat.
Proof. destruct v as [|p|p]; simpl; [lia| |]; destruct p; simpl; lia. Qed.

Lemma size_nat_size p : Z.of_nat (Pos.size_nat p) = Zpos (Pos.size p).
Proof. induction p; simpl Pos.size_nat; simpl Pos.size; lia. Qed.

Lemma width_log2 v : 0 < v -> Z.of_nat (width v) = Z.log2 v + 1.
Proof.
  destruct v as [|p|p]; try lia. intros _.
  destruct p; cbn [width Pos.size_nat Z.log2]; rewrite ?Nat2Z.inj_succ, ?size_nat_size; simpl; lia.
Qed.

Lemma width_le v n : 0 <= v -> (1 <= n)%nat -> (width v <= n)%nat <-> v < 2 ^ Z.of_nat n.
Proof.
  intros Hv Hn. destruct (Z.eq_dec v 0) as [->|Hne].
  - simpl. split; intros _; [apply Z.pow_pos_nonneg|]; lia.
  - rewrite Z.log2_lt_pow2 by lia.
    pose proof (width_log2 v). lia.
Qed.

Lemma digits_msb_first v : 0 <= v -> drop 2 (bin v) = msb_first (width v) v.
Proof.
  destruct v as [|p|p]; try lia; intros _.
  - reflexivity.
  - cbn [bin width]. change (lit "0b") with [48; 98]. cbn [app drop].
    apply bin_pos_msb_first.
Qed.

Lemma width_bound v : 0 <= v -> v < 2 ^ Z.of_nat (width v).
Proof. intros Hv. apply width_le; auto using width_pos. Qed.

Lemma bits_msb_first w v : 0 <= v -> bits w v = msb_first (max w (width v)) v.
Proof.
  intros Hv. unfold bits. rewrite digits_msb_first by assumption.
  pose proof (width_pos v) as Hw. pose proof (width_bound v Hv) as Hb.
  unfold zfill. rewrite msb_first_length.
  replace (max w (width v)) with ((w - width v) + width v)%nat by lia.
  rewrite msb_first_small by lia.
  destruct (width v) as [|n] eqn:E; [lia|].
  cbn [msb_first]. destruct (Z.testbit v (Z.of_nat n)); reflexivity.
Qed.

Lemma bits_fit w v :
  (1 <= w)%nat -> 0 <= v < 2 ^ Z.of_nat w -> bits w v = msb_first w v.
Proof.
  intros Hw Hv. rewrite bits_msb_first by lia. f_equal.
  assert (width v <= w)%nat by (apply width_le; lia). lia.
Qed.

Lemma bits_length w v : 0 <= v -> length (bits w v) = max w (width v).
Proof. intros Hv. now rewrite bits_msb_first, msb_first_length. Qed.

Lemma bits_binary w v : 0 <= v -> Forall binary (bits w v).
Proof. intros Hv. rewrite bits_msb_first by lia. apply msb_first_binary. Qed.

Lemma group_value_snoc g c : group_value (g ++ [c]) = 2 * group_value g + (c - chr0).
Proof. unfold group_value. now rewrite foldl_app. Qed.

Lemma group_value_msb_first n v :
  group_value (msb_first n v) = v mod 2 ^ Z.of_nat n.
Proof.
  revert v. induction n as [|n IH]; intros v.
  - simpl. now rewrite Z.mod_1_r.
  - rewrite msb_first_snoc, group_value_snoc, IH.
    rewrite Nat2Z.inj_succ, Z.pow_succ_r by lia.
    rewrite Z.rem_mul_r by lia.
    rewrite <- Z.bit0_mod, Z.bit0_odd.
    destruct (Z.odd v); unfold bitchar, chr0, chr1; simpl Z.b2z; lia.
Qed.

Lemma group_value_bits w v : 0 <= v -> group_value (bits w v) = v.
Proof.
  intros Hv. rewrite bits_msb_first, group_value_msb_first by lia.
  apply Z.mod_small. split; [lia|].
  pose proof (width_pos v). apply width_le; lia.
Qed.

Lemma take_bits16 v :
  0 <= v < 65536 -> take 8 (bits 16 v) = byte_group (v / 256).
Proof.
  intros Hv. rewrite bits_fit by (simpl; lia).
  change 16%nat with (8 + 8)%nat. rewrite msb_first_app.
  rewrite take_app_length' by (symmetry; apply msb_first_length).
  now rewrite Z.shiftr_div_pow2 by lia.
Qed.

Lemma drop_bits16 v :
  0 <= v < 65536 -> drop 8 (bits 16 v) = byte_group v.
Proof.
  intros Hv. rewrite bits_fit by (simpl; lia).
  change 16%nat with (8 + 8)%nat. rewrite msb_first_app.
  now rewrite drop_app_length' by (symmetry; apply msb_first_length).
Qed.

Lemma bits8_byte v : 0 <= v < 256 -> bits 8 v = byte_group v.
Proof. intros Hv. apply bits_fit; simpl; lia. Qed.

Lemma byte_group_ByteGroup v : ByteGroup (byte_group v).
Proof. split; [apply msb_first_length | apply msb_first_binary]. Qed.

Lemma group_value_byte v : 0 <= v < 256 -> group_value (byte_group v) = v.
Proof.
  intros Hv. unfold byte_group. rewrite group_value_msb_first.
  apply Z.mod_small. simpl; lia.
Qed.

Lemma be16_split v :
  0 <= v < 65536 -> be16 (byte_group (v / 256)) (byte_group v) = v.
Proof.
  intros Hv. unfold be16, byte_group. rewrite !group_value_msb_first.
  change (2 ^ Z.of_nat 8) with 256.
  rewrite (Z.mod_small (v / 256)).
  - pose proof (Z.div_mod v 256). lia.
  - split; [apply Z.div_pos; lia | apply Z.div_lt_upper_bound; lia].
Qed.

(** Beyond the width asked for, nothing is cut: the split at 8 keeps every
    digit. *)
Lemma bits_wide w v :
  0 <= v -> 2 ^ Z.of_nat w <= v -> (1 <= w)%nat ->
  length (bits w v) = width v /\ (w < width v)%nat.
Proof.
  intros Hv Hw H1. rewrite bits_length by lia.
  assert (~ (width v <= w)%nat) by (rewrite width_le by lia; lia). lia.
Qed.

(** ** UTF-8 *)

Lemma lor_byte a b : 0 <= a -> 0 <= b -> a + b < 256 -> byte (Z.lor a b).
Proof.
  intros Ha Hb Hab. pose proof (Z.add_lor_land a b).
  pose proof (proj2 (Z.land_nonneg a b) (or_introl Ha)).
  pose proof (proj2 (Z.lor_nonneg a b) (conj Ha Hb)).
  unfold byte. lia.
Qed.

Lemma land63 a : 0 <= Z.land a 63 < 64.
Proof.
  change 63 with (Z.ones 6). rewrite Z.land_ones by lia.
  apply Z.mod_pos_bound. reflexivity.
Qed.

Lemma shiftr_bound a n k : 0 <= a < k * 2 ^ n -> 0 <= n -> 0 <= Z.shiftr a n < k.
Proof.
  intros Ha Hn. rewrite Z.shiftr_div_pow2 by lia. split.
  - apply Z.div_pos; lia.
  - apply Z.div_lt_upper_bound; lia.
Qed.

Lemma encode_char_scalar c :
  scalar c -> exists b, encode_char c = Ok b /\ Forall byte b.
Proof.
  intros [Hc Hs]. unfold encode_char.
  destruct (Z.ltb_spec c 0); [lia|].
  destruct (Z.ltb_spec c 128).
  { eexists; split; [reflexivity|]. repeat constructor; lia. }
  destruct (Z.ltb_spec c 2048).
  { eexists; split; [reflexivity|].
    pose proof (land63 c). pose proof (shiftr_bound c 6 32).
    repeat constructor; apply lor_byte; lia. }
  destruct (Z.ltb_spec c 65536).
  { destruct (Z.leb_spec 55296 c), (Z.leb_spec c 57343); simpl; try lia;
    (eexists; split; [reflexivity|]);
    pose proof (land63 c); pose proof (land63 (Z.shiftr c 6));
    pose proof (shiftr_bound c 12 16);
    repeat constructor; apply lor_byte; lia. }
  destruct (Z.ltb_spec c 1114112); [|lia].
  eexists; split; [reflexivity|].
  pose proof (land63 c); pose proof (land63 (Z.shiftr c 6)).
  pose proof (land63 (Z.shiftr c 12)).
  pose proof (shiftr_bound c 18 5).
  repeat constructor; apply lor_byte; lia.
Qed.

Lemma encode_utf8_scalar s :
  Forall scalar s -> exists b, encode_utf8 s = Ok b /\ Forall byte b.
Proof.
  induction 1 as [|c s Hc _ [bs [IH Hbs]]].
  - exists []. split; [reflexivity | constructor].
  - destruct (encode_char_scalar c Hc) as [b [Hb Hbb]].
    exists (b ++ bs). simpl. rewrite Hb, IH. simpl.
    split; [reflexivity | now apply Forall_app].
Qed.

(** ** Record builder *)

Lemma map_seq_size {A} (start : nat) (xs : list A) :
  size (map_seq start xs : gmap nat A) = length xs.
Proof.
  revert start. induction xs as [|x xs IH]; intros start; simpl.
  - apply map_size_empty.
  - rewrite map_size_insert_None by apply map_seq_cons_disjoint.
    now rewrite IH.
Qed.

Lemma for_in_ext {St I} (xs : list I) (f g : St -> I -> result St) s :
  (forall s x, f s x = g s x) -> for_in xs f s = for_in xs g s.
Proof.
  intros Hfg. revert s. induction xs as [|x xs IH]; intros s; simpl; [reflexivity|].
  rewrite Hfg. destruct (g s x); simpl; auto.
Qed.

(** Appending one element per item is a [map]. *)
Lemma for_in_append {A B} (f : B -> A) (xs : list B) (acc : list A) :
  for_in xs (fun acc x => Ok (acc ++ [f x])) acc = Ok (acc ++ map f xs).
Proof.
  revert acc. induction xs as [|x xs IH]; intros acc; simpl.
  - now rewrite app_nil_r.
  - rewrite IH, <- app_assoc. reflexivity.
Qed.

Lemma for_in_seq_lookup {St} (d : gmap nat str) (lines : list str) (k : nat)
    (body : St -> str -> result St) s :
  (forall i, d !! (k + i)%nat = lines !! i) ->
  for_in (seq k (length lines))
    (fun s i => seg <~ getitem d i; body s seg)%result s
  = for_in lines body s.
Proof.
  revert k s. induction lines as [|l lines IH]; intros k s Hd; simpl; [reflexivity|].
  unfold getitem at 1. pose proof (Hd 0%nat) as H0.
  rewrite Nat.add_0_r in H0. simpl in H0. rewrite H0. simpl.
  destruct (body s l); simpl; [|reflexivity].
  apply IH. intros i. specialize (Hd (S i)). simpl in Hd.
  rewrite <- Hd. f_equal. lia.
Qed.

(** The loop over the indices of the dict reads the lines in order;
    no key is ever missing. *)
Lemma for_in_indexed {St} (lines : list str) (body : St -> str -> result St) s :
  for_in (range (size (map_seq 0 lines : gmap nat str)))
    (fun s i => seg <~ getitem (map_seq 0 lines) i; body s seg)%result s
  = for_in lines body s.
Proof.
  rewrite map_seq_size. apply for_in_seq_lookup.
  intros i. apply lookup_map_seq_0.
Qed.

Section RecordBuilderTheory.
Context `{UnicodeDecimal}.

Lemma line_body_record d code_array i :
  line_body d code_array i
  = (seg <~ getitem d i; r <~ record seg; Ok (code_array ++ r))%result.
Proof.
  unfold line_body, record. destruct (getitem d i) as [seg|]; simpl; [|reflexivity].
  destruct (Extract_Number_String seg) as [[[label|] code]|]; simpl;
    [| now rewrite app_nil_r | reflexivity].
  destruct (encode_utf8 (code ++ [CR])) as [bc|]; simpl; [|reflexivity].
  rewrite for_in_append, <- !app_assoc. reflexivity.
Qed.

Lemma for_in_records lines acc :
  for_in lines (fun acc seg => r <~ record seg; Ok (acc ++ r))%result acc
  = (rs <~ records lines; Ok (acc ++ rs))%result.
Proof.
  revert acc. induction lines as [|l ls IH]; intros acc; simpl.
  - now rewrite app_nil_r.
  - destruct (record l) as [r|]; simpl; [|reflexivity].
    rewrite IH. destruct (records ls); simpl; [|reflexivity].
    now rewrite app_assoc.
Qed.

(** [Create_BinData] is the frame around the records of the lines. *)
Lemma Create_BinData_records text :
  Create_BinData text
  = (data <~ records (split LF text); Ok (frame data))%result.
Proof.
  unfold Create_BinData.
  set (lines := split LF text).
  rewrite (for_in_ext _ _ (fun acc i =>
    seg <~ getitem (map_seq 0 lines) i; r <~ record seg; Ok (acc ++ r))%result)
    by (intros; apply line_body_record).
  rewrite (for_in_indexed lines (fun acc seg => r <~ record seg; Ok (acc ++ r))%result).
  rewrite for_in_records.
  destruct (records lines) as [data|]; reflexivity.
Qed.

Lemma re_digits_spec s :
  s = (re_digits s).1 ++ (re_digits s).2
  /\ Forall (fun c => is_Some (decimal c)) (re_digits s).1.
Proof.
  induction s as [|c s [IH1 IH2]]; simpl; [split; [reflexivity | constructor]|].
  destruct (decimal c) as [d|] eqn:Hd.
  - destruct (re_digits s) as [ds r]. simpl in *. split; [congruence|].
    constructor; [rewrite Hd; eauto | assumption].
  - simpl. split; [reflexivity | constructor].
Qed.

Lemma int_acc_number ds acc :
  Forall (fun c => is_Some (decimal c)) ds ->
  int_acc acc ds
  = Ok (foldl (fun acc c => 10 * acc + default 0 (decimal c)) acc ds).
Proof.
  intros Hds. revert acc. induction Hds as [|c ds [d Hd] _ IH]; intros acc; simpl.
  - reflexivity.
  - rewrite Hd. simpl. apply IH.
Qed.

Lemma number_acc_nonneg ds acc :
  0 <= acc ->
  0 <= foldl (fun acc c => 10 * acc + default 0 (decimal c)) acc ds.
Proof.
  revert acc. induction ds as [|c ds IH]; intros acc Hacc; simpl; [assumption|].
  apply IH. destruct (decimal c) as [d|] eqn:Hd; simpl; [|lia].
  pose proof (decimal_range c d Hd). lia.
Qed.

Lemma label_nonneg line n : label line = Some n -> 0 <= n.
Proof.
  unfold label. destruct (re_digits line) as [[|c ds] r]; [discriminate|].
  intros [= <-]. apply number_acc_nonneg. lia.
Qed.

Lemma re_dots_id r : LF ∉ r -> re_dots r = r.
Proof.
  induction r as [|c r IH]; simpl; [reflexivity|].
  intros Hn. apply not_elem_of_cons in Hn as [Hc Hr].
  destruct (Z.eqb_spec c LF); [congruence|]. now rewrite IH.
Qed.

(** [Extract_Number_String] never raises. *)
Lemma Extract_Number_String_spec line :
  Extract_Number_String line
  = Ok (label line,
        match label line with
        | Some _ => lstrip (re_dots (re_digits line).2)
        | None => line
        end).
Proof.
  unfold Extract_Number_String, re_match, label.
  destruct (re_digits_spec line) as [_ Hds].
  destruct (re_digits line) as [[|c ds] r]; [reflexivity|].
  cbn beta iota. unfold int. rewrite int_acc_number by assumption. reflexivity.
Qed.

Lemma split_no_sep sep s : Forall (fun l => sep ∉ l) (split sep s).
Proof.
  induction s as [|c s IH]; simpl.
  - repeat constructor. apply not_elem_of_nil.
  - destruct (Z.eqb_spec c sep).
    + constructor; [apply not_elem_of_nil | assumption].
    + destruct (split sep s) as [|f fs]; inversion IH; subst;
        constructor; try assumption;
        rewrite not_elem_of_cons; split; auto using not_elem_of_nil.
Qed.

(** The record of a line of the file. *)
Lemma record_line line :
  LF ∉ line ->
  record line
  = match label line with
    | None => Ok []
    | Some n =>
        (bc <~ encode_utf8 (body line);
         Ok ([take 8 (bits 16 n); drop 8 (bits 16 n)] ++ map (bits 8) bc))%result
    end.
Proof.
  intros Hlf. unfold record. rewrite Extract_Number_String_spec. simpl.
  destruct (label line) as [n|]; [|reflexivity].
  unfold body. rewrite re_dots_id; [reflexivity|].
  destruct (re_digits_spec line) as [Hl _]. intros Hin. apply Hlf.
  rewrite Hl. apply elem_of_app. now right.
Qed.

Lemma lstrip_suffix s : exists p, s = p ++ lstrip s.
Proof.
  induction s as [|c s [p IH]]; simpl; [now exists []|].
  destruct (isspace c); [|now exists []].
  exists (c :: p). simpl. congruence.
Qed.

Lemma body_scalar line : Forall scalar line -> Forall scalar (body line).
Proof.
  intros Hl. unfold body. apply Forall_app. split.
  - destruct (re_digits_spec line) as [Hs _].
    destruct (lstrip_suffix (re_digits line).2) as [p Hp].
    rewrite Hs, Hp in Hl.
    apply Forall_app in Hl as [_ Hl]. now apply Forall_app in Hl as [_ Hl].
  - repeat constructor; unfold CR; lia.
Qed.

Lemma utf8_scalar s :
  Forall scalar s -> encode_utf8 s = Ok (utf8 s) /\ Forall byte (utf8 s).
Proof.
  intros Hs. destruct (encode_utf8_scalar s Hs) as [b [Hb Hbb]].
  unfold utf8. rewrite Hb. auto.
Qed.

Lemma record_groups line :
  LF ∉ line -> Forall scalar line -> record line = Ok (groups line).
Proof.
  intros Hlf Hs. rewrite record_line by assumption. unfold groups.
  destruct (label line) as [n|]; [|reflexivity].
  destruct (utf8_scalar (body line) (body_scalar line Hs)) as [-> _].
  reflexivity.
Qed.

Lemma records_groups lines :
  Forall (fun l => LF ∉ l) lines -> Forall (Forall scalar) lines ->
  records lines = Ok (flat_map groups lines).
Proof.
  induction 1 as [|l ls Hl _ IH]; intros Hs; [reflexivity|].
  apply Forall_cons in Hs as [Hsl Hsls]. simpl.
  rewrite record_groups, IH by assumption. reflexivity.
Qed.

Lemma split_Forall (P : Z -> Prop) sep s :
  Forall P s -> Forall (Forall P) (split sep s).
Proof.
  induction 1 as [|c s Hc _ IH]; simpl; [repeat constructor|].
  destruct (c =? sep); [constructor; [constructor | assumption]|].
  destruct (split sep s) as [|f fs]; [repeat constructor; assumption|].
  apply Forall_cons in IH as [Hf Hfs]. repeat constructor; assumption.
Qed.

(** On the text of a file the builder returns, and what it returns is the
    frame around the groups of the lines, in order. *)
Lemma Create_BinData_groups text :
  Forall scalar text ->
  Create_BinData text = Ok (frame (flat_map groups (split LF text))).
Proof.
  intros Hs. rewrite Create_BinData_records, records_groups;
    [reflexivity | apply split_no_sep | now apply split_Forall].
Qed.

Lemma groups_length line : length (groups line) = group_count line.
Proof.
  unfold groups, group_count. destruct (label line); [|reflexivity].
  simpl. now rewrite length_map.
Qed.

Lemma flat_map_groups_length lines :
  length (flat_map groups lines) = list_sum (map group_count lines).
Proof.
  induction lines as [|l ls IH]; simpl; [reflexivity|].
  now rewrite length_app, groups_length, IH.
Qed.

Lemma groups_spec_record line :
  Forall scalar line ->
  (forall n, label line = Some n -> n <= 65535) ->
  groups line = spec_record line.
Proof.
  intros Hs Hfit. unfold groups, spec_record.
  destruct (label line) as [n|] eqn:Hn; [|reflexivity].
  pose proof (label_nonneg line n Hn). specialize (Hfit n eq_refl).
  rewrite take_bits16, drop_bits16 by lia. f_equal.
  destruct (utf8_scalar (body line) (body_scalar line Hs)) as [_ Hb].
  induction Hb as [|b bs Hb _ IH]; simpl; [reflexivity|].
  now rewrite bits8_byte, IH.
Qed.

End RecordBuilderTheory.

(** ** The size header *)

Section Header.
Context `{UnicodeDecimal}.

Lemma frame_fit data :
  Z.of_nat (length data) + 256 <= 65535 ->
  frame data
  = byte_group ((Z.of_nat (length data) + 256) / 256)
      :: byte_group (Z.of_nat (length data) + 256)
      :: data ++ [byte_group 0].
Proof.
  intros Hn. unfold frame.
  rewrite take_bits16, drop_bits16 by lia.
  rewrite bits8_byte by lia. reflexivity.
Qed.

Lemma data_count_length text :
  Z.of_nat (length (flat_map groups (split LF text))) = data_count text.
Proof. unfold data_count. now rewrite flat_map_groups_length. Qed.

(** C1 (amended): for every text of a file whose labels have at most 640
    digits and whose count N of label and body ByteGroups satisfies
    N + 256 <= 65535, the builder returns two header ByteGroups, then the N
    data groups, then the terminator; the header ByteGroups decode,
    big-endian, to N + 256. *)
Theorem size_header_counts_data text :
  Forall scalar text ->
  short_labels text ->
  data_count text + 256 <= 65535 ->
  exists h0 h1 data,
    Create_BinData text = Ok (h0 :: h1 :: data ++ [byte_group 0])
    /\ Z.of_nat (length data) = data_count text
    /\ ByteGroup h0 /\ ByteGroup h1
    /\ be16 h0 h1 = data_count text + 256.
Proof.
  intros Hs _ Hn. rewrite Create_BinData_groups by assumption.
  pose proof (data_count_length text) as Hlen.
  rewrite frame_fit by lia. rewrite Hlen.
  eexists _, _, _. split; [reflexivity|].
  split; [assumption|].
  split; [apply byte_group_ByteGroup|].
  split; [apply byte_group_ByteGroup|].
  apply be16_split. unfold data_count in *. lia.
Qed.

End Header.

(** ** Labels and bodies *)

Section Labels.
Context `{UnicodeDecimal}.

Lemma spec_record_ByteGroups line : Forall ByteGroup (spec_record line).
Proof.
  unfold spec_record. destruct (label line); [|constructor].
  constructor; [apply byte_group_ByteGroup|].
  constructor; [apply byte_group_ByteGroup|].
  apply List.Forall_forall. intros g Hg.
  apply in_map_iff in Hg as [b [<- _]]. apply byte_group_ByteGroup.
Qed.

Lemma flat_map_groups_spec lines :
  Forall (Forall scalar) lines ->
  Forall (fun line => forall n, label line = Some n -> n <= 65535) lines ->
  flat_map groups lines = flat_map spec_record lines.
Proof.
  induction 1 as [|l ls Hl _ IH]; intros Hfit; [reflexivity|].
  apply Forall_cons in Hfit as [Hf Hfs]. simpl.
  now rewrite groups_spec_record, IH.
Qed.

(** With every label within 16 bits, the data of the builder are the
    records of the specification, line after line. *)
Lemma records_of_all_lines text :
  Forall scalar text ->
  labels_fit text ->
  exists h0 h1,
    Create_BinData text
    = Ok (h0 :: h1 :: flat_map spec_record (split LF text) ++ [byte_group 0]).
Proof.
  intros Hs Hfit. rewrite Create_BinData_groups by assumption. unfold frame.
  rewrite flat_map_groups_spec by (auto using split_Forall).
  rewrite bits8_byte by lia. eauto.
Qed.

(** C4 (amended): for every line of the text of a file that begins with a
    run of decimal digits whose value is at most 65535, the labels of the
    text having at most 640 digits, the builder
    returns, at the place of the line in input order (after the groups of
    the lines before it, before those of the lines after it), exactly two
    ByteGroups, the 16-bit label big-endian, then one ByteGroup per byte of
    the UTF-8 encoding of its body: the rest of the line, left-trimmed,
    then a carriage return. *)
Theorem records_in_line_order text ls1 line ls2 n :
  Forall scalar text ->
  short_labels text ->
  split LF text = ls1 ++ line :: ls2 ->
  label line = Some n ->
  n <= 65535 ->
  exists h0 h1 pre post,
    Create_BinData text
    = Ok (h0 :: h1 :: pre
            ++ ([byte_group (n / 256); byte_group n]
                  ++ map byte_group (utf8 (lstrip (re_digits line).2 ++ [CR])))
            ++ post)
    /\ length pre = list_sum (map group_count ls1)
    /\ length post = S (list_sum (map group_count ls2))
    /\ be16 (byte_group (n / 256)) (byte_group n) = n
    /\ encode_utf8 (lstrip (re_digits line).2 ++ [CR])
       = Ok (utf8 (lstrip (re_digits line).2 ++ [CR])).
Proof.
  intros Hs _ Hsplit Hn Hfit.
  pose proof (split_Forall scalar LF text Hs) as Hl. rewrite Hsplit in Hl.
  apply Forall_app in Hl as [_ Hl]. apply Forall_cons in Hl as [Hline _].
  pose proof (label_nonneg line n Hn).
  rewrite Create_BinData_groups by assumption.
  rewrite Hsplit, flat_map_app. cbn [flat_map].
  rewrite (groups_spec_record line Hline)
    by (intros k Hk; rewrite Hn in Hk; injection Hk as <-; exact Hfit).
  unfold spec_record at 1. rewrite Hn. unfold body, frame.
  rewrite <- !app_assoc.
  eexists _, _, (flat_map groups ls1), (flat_map groups ls2 ++ [bits 8 0]).
  split; [reflexivity|].
  split; [apply flat_map_groups_length|].
  split; [rewrite length_app, flat_map_groups_length; simpl; lia|].
  split; [apply be16_split; lia|].
  apply (utf8_scalar (body line)), body_scalar, Hline.
Qed.

(** C10 (amended): provided every parsed label is at most 65535 and has
    at most 640 digits, and the size header N + 256 is at most 65535, every
    group the builder returns is a string of exactly 8 characters, each 0
    or 1. *)
Theorem all_groups_are_ByteGroups text :
  Forall scalar text ->
  short_labels text ->
  labels_fit text ->
  data_count text + 256 <= 65535 ->
  exists out, Create_BinData text = Ok out /\ Forall ByteGroup out.
Proof.
  intros Hs _ Hfit Hn. rewrite Create_BinData_groups by assumption.
  eexists. split; [reflexivity|].
  pose proof (data_count_length text) as Hlen.
  rewrite frame_fit by lia.
  rewrite flat_map_groups_spec by (auto using split_Forall).
  constructor; [apply byte_group_ByteGroup|].
  constructor; [apply byte_group_ByteGroup|].
  apply Forall_app. split.
  - apply List.Forall_forall. intros g Hg.
    apply in_flat_map in Hg as [l [_ Hg]].
    pose proof (spec_record_ByteGroups l) as Hl.
    rewrite List.Forall_forall in Hl. now apply Hl.
  - constructor; [apply byte_group_ByteGroup | constructor].
Qed.

(** A numeral of more than 16 digits is left as [bin] prints it. *)
Lemma bits16_wide n : 65535 < n -> bits 16 n = drop 2 (bin n).
Proof.
  intros Hn. rewrite bits_msb_first, digits_msb_first by lia. f_equal.
  destruct (bits_wide 16 n) as [_ Hw]; [lia | simpl; lia | lia | lia].
Qed.

Lemma map_bits8_byte_group bs :
  Forall byte bs -> map (bits 8) bs = map byte_group bs.
Proof.
  induction 1 as [|b bs Hb _ IH]; simpl; [reflexivity|].
  now rewrite bits8_byte, IH.
Qed.

(** C8 (amended): a label above 65535 is not cut to 16 bits.  Its line
    still gives exactly two label groups, at the place of the line in
    input order and followed by the ByteGroups of its body, but they are
    the whole binary numeral of the label, as [bin] prints it, split after
    its eighth digit: the first has 8 digits, the second more than 8, and
    read together they give the label itself.  The labels of the text have
    at most 640 digits. *)
Theorem wide_label_keeps_every_digit text ls1 line ls2 n :
  Forall scalar text ->
  short_labels text ->
  split LF text = ls1 ++ line :: ls2 ->
  label line = Some n ->
  65535 < n ->
  exists h0 h1 pre g0 g1 post,
    Create_BinData text
    = Ok (h0 :: h1 :: pre
            ++ ([g0; g1]
                  ++ map byte_group (utf8 (lstrip (re_digits line).2 ++ [CR])))
            ++ post)
    /\ length pre = list_sum (map group_count ls1)
    /\ length post = S (list_sum (map group_count ls2))
    /\ g0 ++ g1 = drop 2 (bin n)
    /\ length g0 = 8%nat /\ (8 < length g1)%nat
    /\ Forall binary (g0 ++ g1)
    /\ group_value (g0 ++ g1) = n
    /\ encode_utf8 (lstrip (re_digits line).2 ++ [CR])
       = Ok (utf8 (lstrip (re_digits line).2 ++ [CR])).
Proof.
  intros Hs _ Hsplit Hn Hwide.
  pose proof (split_Forall scalar LF text Hs) as Hl. rewrite Hsplit in Hl.
  apply Forall_app in Hl as [_ Hl]. apply Forall_cons in Hl as [Hline _].
  destruct (utf8_scalar (body line) (body_scalar line Hline)) as [Henc Hbytes].
  pose proof (label_nonneg line n Hn) as H0.
  rewrite Create_BinData_groups by assumption.
  rewrite Hsplit, flat_map_app. cbn [flat_map].
  unfold groups at 2. rewrite Hn, map_bits8_byte_group by assumption.
  unfold body in *. unfold frame. rewrite <- !app_assoc.
  exists (take 8 (bits 16 (Z.of_nat (length (flat_map groups ls1
            ++ ([take 8 (bits 16 n); drop 8 (bits 16 n)]
                  ++ map byte_group (utf8 (lstrip (re_digits line).2 ++ [CR])))
            ++ flat_map groups ls2)) + 256))),
         (drop 8 (bits 16 (Z.of_nat (length (flat_map groups ls1
            ++ ([take 8 (bits 16 n); drop 8 (bits 16 n)]
                  ++ map byte_group (utf8 (lstrip (re_digits line).2 ++ [CR])))
            ++ flat_map groups ls2)) + 256))),
         (flat_map groups ls1), (take 8 (bits 16 n)), (drop 8 (bits 16 n)),
         (flat_map groups ls2 ++ [bits 8 0]).
  destruct (bits_wide 16 n) as [Hlen Hw]; [lia | simpl; lia | lia |].
  split; [now rewrite <- !app_assoc|].
  split; [apply flat_map_groups_length|].
  split; [rewrite length_app, flat_map_groups_length; simpl; lia|].
  split; [rewrite take_drop; now apply bits16_wide|].
  split; [rewrite length_take; lia|].
  split; [rewrite length_drop; lia|].
  rewrite take_drop.
  split; [apply bits_binary; lia|].
  split; [apply group_value_bits; lia | exact Henc].
Qed.

End Labels.

(** ** Deciding the hypotheses on a given text *)

Lemma scalarb_scalar c : scalarb c = true -> scalar c.
Proof.
  unfold scalarb, scalar. intros Hc.
  apply andb_prop in Hc as [Hc Hs]. apply andb_prop in Hc as [H0 H1].
  apply Z.leb_le in H0. apply Z.ltb_lt in H1.
  split; [lia|]. intros [Ha Hb].
  apply Z.leb_le in Ha, Hb. rewrite Ha, Hb in Hs. discriminate.
Qed.

Lemma scalar_check s : forallb scalarb s = true -> Forall scalar s.
Proof.
  intros Hs. apply List.Forall_forall. intros c Hc.
  apply scalarb_scalar. rewrite forallb_forall in Hs. now apply Hs.
Qed.

Lemma labels_fit_check `{UnicodeDecimal} text :
  forallb label_fitsb (split LF text) = true -> labels_fit text.
Proof.
  intros Hs. apply List.Forall_forall. intros l Hl n Hn.
  rewrite forallb_forall in Hs. specialize (Hs l Hl).
  unfold label_fitsb in Hs. rewrite Hn in Hs. now apply Z.leb_le.
Qed.

Lemma binary_check data :
  forallb (forallb binaryb) data = true -> Forall (Forall binary) data.
Proof.
  intros Hd. apply List.Forall_forall. intros g Hg.
  apply List.Forall_forall. intros c Hc.
  rewrite forallb_forall in Hd. specialize (Hd g Hg).
  rewrite forallb_forall in Hd. specialize (Hd c Hc).
  unfold binaryb in Hd. apply orb_prop in Hd as [Hd | Hd];
    apply Z.eqb_eq in Hd; [now left | now right].
Qed.

(** ** Lines without a label *)

Lemma split_line sep l : sep ∉ l -> split sep l = [l].
Proof.
  induction l as [|c l IH]; intros Hl; simpl; [reflexivity|].
  apply not_elem_of_cons in Hl as [Hc Hl].
  destruct (Z.eqb_spec c sep); [congruence|]. now rewrite IH.
Qed.

Lemma split_app_sep sep l s :
  sep ∉ l -> split sep (l ++ sep :: s) = l :: split sep s.
Proof.
  induction l as [|c l IH]; intros Hl; simpl.
  - now rewrite Z.eqb_refl.
  - apply not_elem_of_cons in Hl as [Hc Hl].
    destruct (Z.eqb_spec c sep); [congruence|]. now rewrite IH.
Qed.

Lemma split_join sep ls :
  ls <> [] -> Forall (fun l => sep ∉ l) ls -> split sep (join sep ls) = ls.
Proof.
  intros Hne Hls. induction Hls as [|l ls Hl Hls IH]; [congruence|].
  destruct ls as [|l' ls]; simpl.
  - now apply split_line.
  - rewrite split_app_sep by assumption. f_equal. now apply IH.
Qed.

Section Unlabelled.
Context `{UnicodeDecimal}.

Lemma records_app ls1 ls2 :
  records (ls1 ++ ls2)
  = (r1 <~ records ls1; r2 <~ records ls2; Ok (r1 ++ r2))%result.
Proof.
  induction ls1 as [|l ls1 IH]; simpl.
  - now destruct (records ls2).
  - destruct (record l); simpl; [|reflexivity]. rewrite IH.
    destruct (records ls1); simpl; [|reflexivity].
    destruct (records ls2); simpl; [|reflexivity].
    now rewrite app_assoc.
Qed.

(** A line without a label is dropped before anything is encoded. *)
Lemma record_unlabelled line : label line = None -> record line = Ok [].
Proof.
  intros Hl. unfold record. rewrite Extract_Number_String_spec, Hl.
  reflexivity.
Qed.

Lemma records_unlabelled lines :
  Forall (fun l => label l = None) lines -> records lines = Ok [].
Proof.
  induction 1 as [|l ls Hl _ IH]; simpl; [reflexivity|].
  now rewrite record_unlabelled, IH.
Qed.

Lemma records_drop_unlabelled ls1 line ls2 :
  label line = None -> records (ls1 ++ line :: ls2) = records (ls1 ++ ls2).
Proof.
  intros Hl. rewrite !records_app. simpl. rewrite record_unlabelled by assumption.
  simpl. destruct (records ls1); simpl; [|reflexivity].
  now destruct (records ls2).
Qed.

(** C7: a line with no leading run of decimal digits gives no Record and no
    ByteGroup: taking it out of the input changes nothing of what the
    builder returns, the size header included.  An input with no labelled
    line gives the header of 256, then the terminator, and nothing else. *)
Theorem unlabelled_lines_add_nothing :
  (forall ls1 line ls2,
     Forall (fun l => LF ∉ l) (ls1 ++ line :: ls2) ->
     label line = None ->
     group_count line = 0%nat
     /\ Create_BinData (join LF (ls1 ++ line :: ls2))
        = Create_BinData (join LF (ls1 ++ ls2)))
  /\ (forall text,
        Forall (fun l => label l = None) (split LF text) ->
        Create_BinData text
        = Ok [lit "00000001"; lit "00000000"; lit "00000000"])
  /\ be16 (lit "00000001") (lit "00000000") = 256
  /\ group_value (lit "00000000") = 0.
Proof.
  split; [|split; [|split; reflexivity]].
  - intros ls1 line ls2 Hlf Hl.
    split; [unfold group_count; now rewrite Hl|].
    rewrite !Create_BinData_records.
    rewrite split_join by (assumption || now destruct ls1).
    rewrite records_drop_unlabelled by assumption.
    destruct (ls1 ++ ls2) as [|l ls] eqn:E.
    + reflexivity.
    + rewrite split_join; [reflexivity | discriminate |].
      rewrite <- E. apply Forall_app in Hlf as [H1 H2].
      apply Forall_cons in H2 as [_ H2]. now apply Forall_app.
  - intros text Hl. rewrite Create_BinData_records, records_unlabelled by assumption.
    reflexivity.
Qed.

End Unlabelled.

(** ** The store *)

Lemma bind_ok {A B} (c : prog A) (k : A -> prog B) s a s' :
  c s = Ok (a, s') -> bind c k s = k a s'.
Proof. unfold bind. now intros ->. Qed.

Lemma read_ok st fs l b :
  st !! l = Some b ->
  read l {| store := st; files := fs |} = Ok (b, {| store := st; files := fs |}).
Proof. unfold read. simpl. now intros ->. Qed.

(** Extending the newest object with an older one. *)
Lemma extend_newest st fs enc src b :
  st !! src = Some b ->
  extend (length st) src {| store := st ++ [enc]; files := fs |}
  = Ok (tt, {| store := st ++ [enc ++ b]; files := fs |}).
Proof.
  intros Hsrc. unfold extend.
  rewrite (bind_ok _ _ _ b {| store := st ++ [enc]; files := fs |})
    by (apply read_ok; now apply lookup_app_l_Some).
  rewrite (bind_ok _ _ _ enc {| store := st ++ [enc]; files := fs |})
    by (apply read_ok, list_lookup_middle; reflexivity).
  simpl. do 3 f_equal.
  rewrite (insert_app_r_alt st [enc] (length st)) by reflexivity.
  now rewrite Nat.sub_diag.
Qed.

(** ** Frame encoder *)

Section EncoderTheory.
Context `{UnicodeDecimal}.
Variable m : module.
Variables one zero : bytes.

Local Abbreviation pulse := (pulse one zero).
Local Abbreviation render := (render one zero).
Local Abbreviation frame_of := (frame_of m one zero).
Local Abbreviation loaded := (loaded m one zero).

Lemma render_app bs cs : render (bs ++ cs) = render bs ++ render cs.
Proof. unfold render. apply flat_map_app. Qed.

Lemma render_snoc bs b : render (bs ++ [b]) = render bs ++ pulse b.
Proof. rewrite render_app. unfold render at 2. simpl. now rewrite app_nil_r. Qed.

Lemma int_binary c : binary c -> int [c] = Ok (Z.b2z (bit_of c)).
Proof.
  intros [-> | ->]; unfold int, int_acc;
    rewrite decimal_ascii by (unfold chr0, chr1; lia); reflexivity.
Qed.

(** One turn of the loop over the data bits. *)
Lemma data_bit_step st fs c p enc :
  loaded st -> binary c ->
  (v <- lift (int [c]) ;;
   if v =? 1
   then (extend (length st) (one_pulse m) ;; ret (p + 1))
   else (extend (length st) (zero_pulse m) ;; ret p))%prog
    {| store := st ++ [enc]; files := fs |}
  = Ok (p + Z.b2z (bit_of c),
        {| store := st ++ [enc ++ pulse (bit_of c)]; files := fs |}).
Proof.
  intros [Hone Hzero] Hc.
  rewrite (bind_ok _ _ _ (Z.b2z (bit_of c))
             {| store := st ++ [enc]; files := fs |})
    by (unfold lift; now rewrite int_binary).
  destruct Hc as [-> | ->]; cbn [bit_of Z.b2z Z.eqb chr0 chr1 Pos.eqb pulse].
  - rewrite (bind_ok _ _ _ _ _ (extend_newest _ _ _ _ _ Hzero)).
    unfold ret. now rewrite Z.add_0_r.
  - rewrite (bind_ok _ _ _ _ _ (extend_newest _ _ _ _ _ Hone)).
    reflexivity.
Qed.

(** The loop over the data bits: one pulse per digit, in order, and the
    count of the 1 bits. *)
Lemma data_bits_loop st fs g p enc :
  loaded st -> Forall binary g ->
  for_each g
    (fun p bit =>
       v <- lift (int [bit]) ;;
       if v =? 1
       then (extend (length st) (one_pulse m) ;; ret (p + 1))
       else (extend (length st) (zero_pulse m) ;; ret p))%prog
    p {| store := st ++ [enc]; files := fs |}
  = Ok (p + popcount (map bit_of g),
        {| store := st ++ [enc ++ render (map bit_of g)]; files := fs |}).
Proof.
  intros Hl Hg. revert p enc.
  induction Hg as [|c g Hc _ IH]; intros p enc; cbn [for_each].
  - unfold ret. simpl. now rewrite Z.add_0_r, app_nil_r.
  - rewrite (bind_ok _ _ _ _ _ (data_bit_step st fs c p enc Hl Hc)).
    rewrite IH. simpl. rewrite <- app_assoc. do 2 f_equal. lia.
Qed.

(** What the two branches of the source emit is the parity bit of the
    specification. *)
Lemma parity_branches mode p :
  (if mode =? 0
   then if (p =? 0) || is_even p then true else false
   else if bool_eq_int (is_even p) 0 then true else false)
  = spec_parity mode p.
Proof.
  unfold spec_parity, is_even, bool_eq_int.
  rewrite Zmod_even. rewrite <- Z.negb_even.
  destruct (mode =? 0), (Z.eqb_spec p 0) as [Hp|Hp]; simpl;
    try (rewrite Hp; reflexivity); destruct (Z.even p); reflexivity.
Qed.

(** [Encode_Data] on a string of binary digits: a fresh object holding the
    frame; no other object and no file changes. *)
Lemma Encode_Data_run st fs g :
  loaded st -> Forall binary g ->
  Encode_Data m g {| store := st; files := fs |}
  = Ok (length st, {| store := st ++ [frame_of g]; files := fs |}).
Proof.
  intros Hl Hg. pose proof Hl as [Hone Hzero]. unfold Encode_Data.
  set (start := negb (STARTBIT (vars m) =? 0)).
  rewrite (bind_ok _ _ _ (length st)
             {| store := st ++ [pulse start]; files := fs |}).
  2:{ subst start. destruct (STARTBIT (vars m) =? 0); simpl;
      [rewrite (bind_ok _ _ _ zero {| store := st; files := fs |})
         by now apply read_ok
      |rewrite (bind_ok _ _ _ one {| store := st; files := fs |})
         by now apply read_ok]; reflexivity. }
  rewrite (bind_ok _ _ _ _ _ (data_bits_loop st fs g 0 (pulse start) Hl Hg)).
  rewrite Z.add_0_l.
  set (p := popcount (map bit_of g)).
  rewrite (bind_ok _ _ _ tt
     {| store := st ++ [(pulse start ++ render (map bit_of g))
                          ++ pulse (spec_parity (PARITY (vars m)) p)];
        files := fs |}).
  - unfold ret, frame_of. fold p start. do 4 f_equal.
    change (render (start :: ?l)) with (pulse start ++ render l).
    rewrite render_app. unfold render at 3. simpl.
    now rewrite app_nil_r, app_assoc.
  - rewrite <- parity_branches.
    destruct (PARITY (vars m) =? 0).
    + destruct ((p =? 0) || is_even p); now apply extend_newest.
    + destruct (bool_eq_int (is_even p) 0); now apply extend_newest.
Qed.

Lemma bit_of_bitchar b : bit_of (bitchar b) = b.
Proof. now destruct b. Qed.

Lemma bit_of_byte_group v : map bit_of (byte_group v) = data_bits v.
Proof.
  unfold byte_group, data_bits. cbn [msb_first map].
  rewrite !bit_of_bitchar. reflexivity.
Qed.

(** A string of binary digits is the numeral of what it denotes. *)
Lemma binary_numeral g :
  Forall binary g ->
  g = msb_first (length g) (group_value g)
  /\ 0 <= group_value g < 2 ^ Z.of_nat (length g).
Proof.
  induction g as [|c g IH] using rev_ind; intros Hg.
  - split; [reflexivity | unfold group_value; simpl; lia].
  - apply Forall_app in Hg as [Hg Hc]. apply Forall_cons in Hc as [Hc _].
    destruct (IH Hg) as [IHg IHv]. clear IH.
    rewrite length_app, Nat.add_1_r, group_value_snoc.
    rewrite Nat2Z.inj_succ, Z.pow_succ_r by lia.
    rewrite msb_first_snoc.
    assert (Hdiv : (2 * group_value g + (c - chr0)) / 2 = group_value g)
      by (symmetry; apply (Z.div_unique _ 2 _ (c - chr0));
          destruct Hc as [-> | ->]; unfold chr0, chr1; lia).
    assert (Hodd : bitchar (Z.odd (2 * group_value g + (c - chr0))) = c)
      by (destruct Hc as [-> | ->]; unfold chr0, chr1;
          rewrite Z.add_comm, Z.odd_add_mul_2; reflexivity).
    rewrite Hdiv, Hodd, <- IHg. split; [reflexivity|].
    destruct Hc as [-> | ->]; unfold chr0, chr1; lia.
Qed.

Lemma ByteGroup_byte_group g :
  ByteGroup g -> g = byte_group (group_value g) /\ 0 <= group_value g < 256.
Proof.
  intros [Hlen Hg]. destruct (binary_numeral g Hg) as [Heq Hv].
  rewrite Hlen in Heq, Hv. auto.
Qed.

(** C3: for every ByteGroup the frame encoder returns a fresh object that
    holds exactly 10 pulses: the start pulse (zero pulse when the start bit
    is 0, else one pulse), the 8 data bits most significant first (one
    pulse for a 1, zero pulse for a 0), and one parity pulse; nothing
    follows the parity pulse.  No object that existed and no file
    changes. *)
Theorem frame_is_ten_pulses st fs g :
  ByteGroup g -> loaded st ->
  exists parity pulses,
    pulses = [negb (STARTBIT (vars m) =? 0)]
               ++ data_bits (group_value g) ++ [parity]
    /\ length pulses = 10%nat
    /\ Encode_Data m g {| store := st; files := fs |}
       = Ok (length st, {| store := st ++ [render pulses]; files := fs |}).
Proof.
  intros Hg Hl. destruct (ByteGroup_byte_group g Hg) as [Heq _].
  rewrite Encode_Data_run by (assumption || apply Hg).
  assert (Hb : map bit_of g = data_bits (group_value g))
    by (rewrite Heq at 1; apply bit_of_byte_group).
  unfold frame_of. rewrite Hb.
  eexists _, _. split; [reflexivity|]. split; reflexivity.
Qed.

Lemma spec_parity_odd p : Z.odd (p + Z.b2z (spec_parity 0 p)) = true.
Proof.
  unfold spec_parity. simpl. rewrite Z.odd_add, <- Z.negb_even.
  destruct (Z.even p); reflexivity.
Qed.

Lemma spec_parity_even mode p :
  mode <> 0 -> Z.even (p + Z.b2z (spec_parity mode p)) = true.
Proof.
  intros Hm. unfold spec_parity. destruct (Z.eqb_spec mode 0); [congruence|].
  rewrite Z.even_add, <- Z.negb_odd. destruct (Z.odd p); reflexivity.
Qed.

(** C2: for each of the 256 byte values and both parity modes, the frame
    ends in exactly one parity pulse after the start and data pulses, and
    the count of 1 data bits plus the parity bit is odd in odd mode
    (PARITY = 0) and even in even mode (PARITY = 1). *)
Theorem parity_relation st fs v :
  0 <= v < 256 -> loaded st ->
  exists parity,
    Encode_Data m (byte_group v) {| store := st; files := fs |}
    = Ok (length st,
          {| store := st ++ [render (negb (STARTBIT (vars m) =? 0)
                                       :: data_bits v)
                               ++ pulse parity];
             files := fs |})
    /\ (PARITY (vars m) = 0 ->
        Z.odd (popcount (data_bits v) + Z.b2z parity) = true)
    /\ (PARITY (vars m) = 1 ->
        Z.even (popcount (data_bits v) + Z.b2z parity) = true).
Proof.
  intros Hv Hl.
  rewrite Encode_Data_run by (assumption || apply byte_group_ByteGroup).
  unfold frame_of. rewrite bit_of_byte_group.
  exists (spec_parity (PARITY (vars m)) (popcount (data_bits v))).
  split; [|split].
  - change (?b :: ?l ++ ?r) with ((b :: l) ++ r).
    now rewrite render_snoc.
  - intros ->. apply spec_parity_odd.
  - intros Hp. apply spec_parity_even. lia.
Qed.

End EncoderTheory.

(** ** Stream assembler *)

Lemma wave_update_ok st fs w wf f :
  fs !! w = Some wf ->
  wave_update w f {| store := st; files := fs |}
  = Ok (tt, {| store := st; files := <[w := f wf]> fs |}).
Proof. unfold wave_update. simpl. now intros ->. Qed.

(** Writing frames to the file under [w]. *)
Lemma writeframes_ok st (fs : gmap string wave_file) w c k r fr data :
  writeframes w data
    {| store := st;
       files := <[w := {| nchannels := c; sampwidth := k; framerate := r;
                          frames := fr |}]> fs |}
  = Ok (tt, {| store := st;
               files := <[w := {| nchannels := c; sampwidth := k;
                                  framerate := r; frames := fr ++ data |}]> fs |}).
Proof.
  unfold writeframes. erewrite wave_update_ok by apply lookup_insert_eq.
  simpl. now rewrite insert_insert_eq.
Qed.

Section AssemblerTheory.
Context `{UnicodeDecimal}.
Variable m : module.
Variables one zero : bytes.

Local Abbreviation leader_count := (leader_count m one).

Lemma loaded_app st st' : loaded m one zero st -> loaded m one zero (st ++ st').
Proof. intros [H1 H0]. split; now apply lookup_app_l_Some. Qed.

(** The loop over the binary data: every frame, in order, behind what the
    file already holds. *)
Lemma frames_loop st (fs : gmap string wave_file) w c k r fr data :
  loaded m one zero st -> Forall (Forall binary) data ->
  exists st',
    for_each data
      (fun _ byte =>
         e <- Encode_Data m byte ;;
         b <- read e ;;
         writeframes w b)%prog
      tt
      {| store := st;
         files := <[w := {| nchannels := c; sampwidth := k; framerate := r;
                            frames := fr |}]> fs |}
    = Ok (tt, {| store := st ++ st';
                 files := <[w := {| nchannels := c; sampwidth := k;
                                    framerate := r;
                                    frames := fr ++ flat_map (frame_of m one zero) data |}]>
                            fs |}).
Proof.
  intros Hl Hd. revert st fr Hl.
  induction Hd as [|g data Hg _ IH]; intros st fr Hl; cbn [for_each].
  - exists []. unfold ret. simpl. now rewrite !app_nil_r.
  - rewrite (bind_ok _ _ _ tt
      {| store := st ++ [frame_of m one zero g];
         files := <[w := {| nchannels := c; sampwidth := k; framerate := r;
                            frames := fr ++ frame_of m one zero g |}]> fs |}).
    + destruct (IH (st ++ [frame_of m one zero g]) (fr ++ frame_of m one zero g))
        as [st' ->]; [now apply loaded_app|].
      exists (frame_of m one zero g :: st'). simpl.
      now rewrite <- !app_assoc.
    + rewrite (bind_ok _ _ _ _ _ (Encode_Data_run m one zero st _ g Hl Hg)).
      rewrite (bind_ok _ _ _ (frame_of m one zero g)
                 {| store := st ++ [frame_of m one zero g];
                    files := <[w := {| nchannels := c; sampwidth := k;
                                       framerate := r; frames := fr |}]> fs |})
        by (apply read_ok, list_lookup_middle; reflexivity).
      apply writeframes_ok.
Qed.

Lemma trailer_step st (fs : gmap string wave_file) w c k r fr :
  st !! zero_pulse m = Some zero ->
  (z <- read (zero_pulse m) ;; writeframes w z)%prog
    {| store := st;
       files := <[w := {| nchannels := c; sampwidth := k; framerate := r;
                          frames := fr |}]> fs |}
  = Ok (tt, {| store := st;
               files := <[w := {| nchannels := c; sampwidth := k;
                                  framerate := r; frames := fr ++ zero |}]>
                          fs |}).
Proof.
  intros Hz. rewrite (bind_ok _ _ _ _ _ (read_ok _ _ _ _ Hz)).
  apply writeframes_ok.
Qed.

(** The trailer: three bare zero pulses. *)
Lemma trailer_loop st (fs : gmap string wave_file) w c k r fr :
  st !! zero_pulse m = Some zero ->
  for_each (range 3)
    (fun _ x => z <- read (zero_pulse m) ;; writeframes w z)%prog
    tt
    {| store := st;
       files := <[w := {| nchannels := c; sampwidth := k; framerate := r;
                          frames := fr |}]> fs |}
  = Ok (tt, {| store := st;
               files := <[w := {| nchannels := c; sampwidth := k;
                                  framerate := r;
                                  frames := fr ++ zero ++ zero ++ zero |}]>
                          fs |}).
Proof.
  intros Hz. cbn [for_each range seq].
  do 3 rewrite (bind_ok _ _ _ _ _ (trailer_step _ _ _ _ _ _ _ Hz)).
  unfold ret. now rewrite <- !app_assoc.
Qed.

(** [Write_Wav] on binary data: leader, frames, trailer. *)
Lemma Write_Wav_run st fs TargetFile Binary_Data :
  loaded m one zero st ->
  one <> [] ->
  0 < FRAMERATE (vars m) ->
  0 <= LEADER (vars m) ->
  Forall (Forall binary) Binary_Data ->
  exists st',
    Write_Wav m TargetFile Binary_Data {| store := st; files := fs |}
    = Ok (tt,
          {| store := st ++ st';
             files :=
               <[TargetFile :=
                   {| nchannels := 1; sampwidth := 1;
                      framerate := FRAMERATE (vars m);
                      frames :=
                        concat (repeat one (Z.to_nat leader_count))
                        ++ flat_map (frame_of m one zero) Binary_Data
                        ++ zero ++ zero ++ zero |}]> fs |}).
Proof.
  intros Hl Hone Hrate Hlead Hdata.
  pose proof Hl as [H1 H0]. unfold Write_Wav.
  rewrite (bind_ok _ _ _ TargetFile
    {| store := st;
       files := <[TargetFile := {| nchannels := 0; sampwidth := 0;
                                   framerate := 0; frames := [] |}]> fs |})
    by reflexivity.
  rewrite (bind_ok _ _ _ tt
    {| store := st;
       files := <[TargetFile := {| nchannels := 1; sampwidth := 0;
                                   framerate := 0; frames := [] |}]> fs |}).
  2:{ unfold setnchannels. simpl.
      erewrite wave_update_ok by apply lookup_insert_eq.
      simpl. now rewrite insert_insert_eq. }
  rewrite (bind_ok _ _ _ tt
    {| store := st;
       files := <[TargetFile := {| nchannels := 1; sampwidth := 1;
                                   framerate := 0; frames := [] |}]> fs |}).
  2:{ unfold setsampwidth. simpl.
      erewrite wave_update_ok by apply lookup_insert_eq.
      simpl. now rewrite insert_insert_eq. }
  rewrite (bind_ok _ _ _ tt
    {| store := st;
       files := <[TargetFile := {| nchannels := 1; sampwidth := 1;
                                   framerate := FRAMERATE (vars m);
                                   frames := [] |}]> fs |}).
  2:{ unfold setframerate. destruct (Z.leb_spec (FRAMERATE (vars m)) 0); [lia|].
      erewrite wave_update_ok by apply lookup_insert_eq.
      simpl. now rewrite insert_insert_eq. }
  rewrite (bind_ok _ _ _ _ _ (read_ok _ _ _ _ H1)).
  assert (Hlen : Z.of_nat (length one) <> 0) by (destruct one; simpl in *; [congruence | lia]).
  rewrite (bind_ok _ _ _ (FRAMERATE (vars m) / Z.of_nat (length one))
    {| store := st;
       files := <[TargetFile := {| nchannels := 1; sampwidth := 1;
                                   framerate := FRAMERATE (vars m);
                                   frames := [] |}]> fs |}).
  2:{ unfold lift, int_quotient. destruct (Z.eqb_spec (Z.of_nat (length one)) 0); [congruence|].
      rewrite Z.quot_div_nonneg by lia. reflexivity. }
  rewrite (bind_ok _ _ _ _ _ (writeframes_ok _ _ _ _ _ _ _ _)).
  destruct (frames_loop st fs TargetFile 1 1 (FRAMERATE (vars m))
              ([] ++ seq_mul one (FRAMERATE (vars m) / Z.of_nat (length one)
                                    * LEADER (vars m)))
              Binary_Data Hl Hdata) as [st' Hloop].
  rewrite (bind_ok _ _ _ _ _ Hloop).
  exists st'.
  assert (Hz : (st ++ st') !! zero_pulse m = Some zero)
    by now apply lookup_app_l_Some.
  rewrite (bind_ok _ _ _ _ _ (trailer_loop _ _ _ _ _ _ _ Hz)).
  unfold wave_close, ret, seq_mul, leader_count. simpl.
  now rewrite <- !app_assoc.
Qed.

(** C5: the samples [Write_Wav] writes are, in order, the leader (the one
    pulse repeated floor(sampleRate / len(one pulse)) * leaderSeconds
    times), the frame of every group of the binary data in sequence order,
    and exactly 3 bare zero pulses; nothing else.  The frame of a group is
    what the frame encoder returns for it.  The rate and the samples are
    what a WAV header can hold. *)
Theorem written_stream st fs TargetFile Binary_Data :
  loaded m one zero st ->
  one <> [] ->
  0 < FRAMERATE (vars m) ->
  0 <= LEADER (vars m) ->
  Forall (Forall binary) Binary_Data ->
  fits_wav m one zero Binary_Data ->
  (exists st',
     Write_Wav m TargetFile Binary_Data {| store := st; files := fs |}
     = Ok (tt,
           {| store := st ++ st';
              files :=
                <[TargetFile :=
                    {| nchannels := 1; sampwidth := 1;
                       framerate := FRAMERATE (vars m);
                       frames :=
                         concat (repeat one (Z.to_nat leader_count))
                         ++ flat_map (frame_of m one zero) Binary_Data
                         ++ zero ++ zero ++ zero |}]> fs |}))
  /\ forall g st1 fs1,
       g ∈ Binary_Data -> loaded m one zero st1 ->
       Encode_Data m g {| store := st1; files := fs1 |}
       = Ok (length st1,
             {| store := st1 ++ [frame_of m one zero g]; files := fs1 |}).
Proof.
  intros Hl Hone Hrate Hlead Hdata _. split.
  - now apply Write_Wav_run.
  - intros g st1 fs1 Hg Hl1. apply Encode_Data_run; [assumption|].
    rewrite Forall_forall in Hdata. now apply Hdata.
Qed.

End AssemblerTheory.

(** ** Waveform pulse generator *)

Lemma seq_mul_single {A} (v : A) n : seq_mul [v] n = repeat v (Z.to_nat n).
Proof.
  unfold seq_mul. induction (Z.to_nat n) as [|k IH]; simpl; [reflexivity|].
  now rewrite IH.
Qed.

Lemma bytearray1_ok v : 0 <= v < 256 -> bytearray1 v = Ok [v].
Proof.
  intros Hv. unfold bytearray1.
  destruct (Z.leb_spec 0 v), (Z.ltb_spec v 256); simpl; (reflexivity || lia).
Qed.

Lemma half_cycle_count f r :
  0 < f -> 0 <= r -> int_half_quotient r f = Ok (r / f / 2).
Proof.
  intros Hf Hr. unfold int_half_quotient.
  destruct (Z.eqb_spec f 0); [lia|].
  rewrite Z.quot_div_nonneg, Z.mul_comm, Z.div_div by lia.
  reflexivity.
Qed.

Lemma make_square_wave_ok g f r :
  0 < f -> 0 <= r -> 0 <= AMPLITUDE g ->
  0 <= CENTER g - AMPLITUDE g / 2 -> CENTER g + AMPLITUDE g / 2 < 256 ->
  make_square_wave g f r
  = Ok (repeat (CENTER g - AMPLITUDE g / 2) (Z.to_nat (r / f / 2))
        ++ repeat (CENTER g + AMPLITUDE g / 2) (Z.to_nat (r / f / 2))).
Proof.
  intros Hf Hr Ha Hlo Hhi. unfold make_square_wave.
  assert (0 <= AMPLITUDE g / 2) by (apply Z.div_pos; lia).
  rewrite half_cycle_count by assumption. simpl.
  rewrite !bytearray1_ok by lia. simpl.
  now rewrite !seq_mul_single.
Qed.

(** C6: for every frequency f and sample rate r within 32 bits with
    floor(r/f/2) = n, the generator returns exactly 2 * n samples: n
    samples equal to center - amplitude/2, then n samples equal to
    center + amplitude/2, the division of the amplitude truncating. *)
Theorem square_wave_shape g f r n :
  0 < f -> 0 <= r -> fits32 f -> fits32 r -> r / f / 2 = n ->
  0 <= AMPLITUDE g ->
  0 <= CENTER g - Z.quot (AMPLITUDE g) 2 ->
  CENTER g + Z.quot (AMPLITUDE g) 2 < 256 ->
  exists wave,
    make_square_wave g f r = Ok wave
    /\ Z.of_nat (length wave) = 2 * n
    /\ take (Z.to_nat n) wave
       = repeat (CENTER g - Z.quot (AMPLITUDE g) 2) (Z.to_nat n)
    /\ drop (Z.to_nat n) wave
       = repeat (CENTER g + Z.quot (AMPLITUDE g) 2) (Z.to_nat n).
Proof.
  intros Hf Hr _ _ Hn Ha. rewrite Z.quot_div_nonneg by lia. intros Hlo Hhi.
  rewrite make_square_wave_ok by assumption. rewrite Hn.
  assert (0 <= n) by (subst n; apply Z.div_pos; [apply Z.div_pos|]; lia).
  eexists. split; [reflexivity|].
  split; [rewrite length_app, !repeat_length; lia|].
  split.
  - now rewrite take_app_length' by (now rewrite repeat_length).
  - now rewrite drop_app_length' by (now rewrite repeat_length).
Qed.

(** C9 (amended): a frequency and sample rate within 32 bits whose
    half-cycle count floor(sampleRate / frequency / 2) is 0 are not
    refused: the generator raises nothing and returns the empty pulse. *)
Theorem zero_half_cycle_is_accepted g f r :
  0 < f -> 0 <= r -> fits32 f -> fits32 r -> r / f / 2 = 0 ->
  0 <= AMPLITUDE g ->
  0 <= CENTER g - AMPLITUDE g / 2 ->
  CENTER g + AMPLITUDE g / 2 < 256 ->
  make_square_wave g f r = Ok [].
Proof.
  intros Hf Hr _ _ Hn Ha Hlo Hhi.
  rewrite make_square_wave_ok by assumption. now rewrite Hn.
Qed.

(** ** The program *)

Lemma import_ok :
  import boot = Ok (module0, {| store := [one0; zero0]; files := ∅ |}).
Proof. reflexivity. Qed.

Lemma loaded0 : loaded module0 one0 zero0 [one0; zero0].
Proof. split; reflexivity. Qed.

Section ProgramTheory.
Context `{UnicodeDecimal}.

Lemma groups_binary line :
  Forall scalar line -> Forall (Forall binary) (groups line).
Proof.
  intros Hs. unfold groups. destruct (label line) as [n|] eqn:Hn; [|constructor].
  pose proof (label_nonneg line n Hn).
  constructor; [apply Forall_take, bits_binary; lia|].
  constructor; [apply Forall_drop, bits_binary; lia|].
  destruct (utf8_scalar (body line) (body_scalar line Hs)) as [_ Hb].
  induction Hb as [|b bs Hb _ IH]; simpl; constructor; [|assumption].
  apply bits_binary. unfold byte in Hb. lia.
Qed.

(** Whatever the labels and the size, the builder returns strings of
    binary digits: the frame encoder never meets another character. *)
Lemma Create_BinData_binary text :
  Forall scalar text ->
  exists data, Create_BinData text = Ok data /\ Forall (Forall binary) data.
Proof.
  intros Hs. rewrite Create_BinData_groups by assumption.
  eexists. split; [reflexivity|]. unfold frame.
  constructor; [apply Forall_take, bits_binary; lia|].
  constructor; [apply Forall_drop, bits_binary; lia|].
  apply Forall_app. split; [|repeat constructor; apply bits_binary; lia].
  pose proof (split_Forall scalar LF text Hs) as Hl.
  induction Hl as [|l ls Hl _ IH]; simpl; [constructor|].
  apply Forall_app. split; [now apply groups_binary | assumption].
Qed.

(** The conversion of one source already read, directories and tags
    apart: the script imports the module, reads the answers, builds the
    binary data of the text and writes leader, frames and trailer under
    the name of the file.  The labels have at most 640 digits; the rate
    and the samples are what a WAV header can hold. *)
Theorem conversion a FileName text :
  Forall scalar text ->
  short_labels text ->
  0 < ans_FRAMERATE a -> 0 <= ans_LEADER a -> ans_proceed a = true ->
  fits_wav (configure module0 a) one0 zero0
    (frame (flat_map groups (split LF text))) ->
  exists data st',
    Create_BinData text = Ok data
    /\ main a [(FileName, text)] boot
       = Ok (tt,
             {| store := [one0; zero0] ++ st';
                files :=
                  {[ (FileName +:+ ".wav")%string :=
                       {| nchannels := 1; sampwidth := 1;
                          framerate := ans_FRAMERATE a;
                          frames :=
                            concat (repeat one0
                                      (Z.to_nat (ans_FRAMERATE a / 8 * ans_LEADER a)))
                            ++ flat_map (frame_of (configure module0 a) one0 zero0)
                                 data
                            ++ zero0 ++ zero0 ++ zero0 |} ]} |}).
Proof.
  intros Hs _ Hr Hlead Hp _.
  destruct (Create_BinData_binary text Hs) as [data [Hdata Hbin]].
  assert (Hl : loaded (configure module0 a) one0 zero0 [one0; zero0])
    by (split; reflexivity).
  destruct (Write_Wav_run (configure module0 a) one0 zero0 [one0; zero0] ∅
              (FileName +:+ ".wav")%string data Hl) as [st' Hw];
    [discriminate | exact Hr | exact Hlead | exact Hbin |].
  exists data, st'. split; [exact Hdata|].
  unfold main. rewrite (bind_ok _ _ _ _ _ import_ok). rewrite Hp.
  cbn [for_each fst snd].
  assert (Hstep :
    (Binary_Data <- lift (Create_BinData text) ;;
     Write_Wav (configure module0 a) (FileName +:+ ".wav")%string Binary_Data)%prog
      {| store := [one0; zero0]; files := ∅ |}
    = Write_Wav (configure module0 a) (FileName +:+ ".wav")%string data
        {| store := [one0; zero0]; files := ∅ |})
    by (apply bind_ok; unfold lift; now rewrite Hdata).
  rewrite Hw in Hstep. rewrite (bind_ok _ _ _ _ _ Hstep).
  unfold ret. now rewrite insert_empty.
Qed.

End ProgramTheory.

(** ** The pulse generator at the prompts' values *)

(** X1: the generator never fails at the values the prompts accept.  With
    the center at 128, an amplitude from 0 to 255 and a frequency that is
    not 0, frequency and rate within 32 bits, it returns a wave, and every
    sample is a byte from 1 to 255. *)
Theorem square_wave_never_fails g f r :
  CENTER g = 128 -> 0 <= AMPLITUDE g <= 255 -> f <> 0 ->
  fits32 f -> fits32 r ->
  exists wave,
    make_square_wave g f r = Ok wave
    /\ Forall (fun b => 1 <= b <= 255) wave.
Proof.
  intros Hc Ha Hf _ _. unfold make_square_wave, int_half_quotient.
  destruct (Z.eqb_spec f 0); [congruence|]. cbn [rbind].
  assert (0 <= AMPLITUDE g / 2 < 128)
    by (split; [apply Z.div_pos | apply Z.div_lt_upper_bound]; lia).
  rewrite !bytearray1_ok by lia. cbn [rbind].
  eexists. split; [reflexivity|].
  rewrite !seq_mul_single. apply Forall_app. split.
  - apply List.Forall_forall. intros b Hb. apply repeat_spec in Hb. lia.
  - apply List.Forall_forall. intros b Hb. apply repeat_spec in Hb. lia.
Qed.

(** X2: a pulse lasts at most one period of its frequency, and falls short
    of it by less than two samples: with L samples at r samples per second,
    L * f <= r < (L + 2) * f. *)
Theorem pulse_length_bounds g f r :
  0 < f -> 0 <= r -> fits32 f -> fits32 r -> 0 <= AMPLITUDE g ->
  0 <= CENTER g - AMPLITUDE g / 2 -> CENTER g + AMPLITUDE g / 2 < 256 ->
  exists wave,
    make_square_wave g f r = Ok wave
    /\ Z.of_nat (length wave) * f <= r < (Z.of_nat (length wave) + 2) * f.
Proof.
  intros Hf Hr _ _ Ha Hlo Hhi. rewrite make_square_wave_ok by assumption.
  eexists. split; [reflexivity|].
  rewrite length_app, !repeat_length, Z.div_div by lia.
  assert (Hn : 0 <= r / (f * 2)) by (apply Z.div_pos; lia).
  rewrite Nat2Z.inj_add, Z2Nat.id by assumption.
  pose proof (Z.mul_div_le r (f * 2)).
  pose proof (Z.mul_succ_div_gt r (f * 2)). nia.
Qed.

(** ** The parts of a line *)

Lemma lstrip_parts s :
  exists ws,
    s = ws ++ lstrip s
    /\ Forall (fun c => isspace c = true) ws
    /\ forall c t, lstrip s = c :: t -> isspace c = false.
Proof.
  induction s as [|c s [ws [Hs [Hws Hhead]]]].
  - exists []. repeat split; [constructor | discriminate].
  - simpl. destruct (isspace c) eqn:Hc.
    + exists (c :: ws). repeat split.
      * simpl. congruence.
      * now constructor.
      * exact Hhead.
    + exists []. repeat split; [constructor|].
      intros c' t [= <- _]. exact Hc.
Qed.

Lemma re_dots_parts r :
  exists tail,
    r = re_dots r ++ tail
    /\ (LF ∉ re_dots r)
    /\ (tail = [] \/ exists t, tail = LF :: t).
Proof.
  induction r as [|c r [tail [Hr [Hlf Htail]]]].
  - exists []. repeat split; [apply not_elem_of_nil | now left].
  - simpl. destruct (Z.eqb_spec c LF) as [-> | Hc].
    + exists (LF :: r). repeat split; [apply not_elem_of_nil | right; eauto].
    + exists tail. repeat split.
      * simpl. congruence.
      * rewrite not_elem_of_cons. auto.
      * exact Htail.
Qed.

Section LineParts.
Context `{UnicodeDecimal}.

(** The run of digits is the longest one: what follows it does not begin
    with a decimal digit. *)
Lemma re_digits_longest s c t :
  (re_digits s).2 = c :: t -> decimal c = None.
Proof.
  induction s as [|x s IH]; simpl; [discriminate|].
  destruct (decimal x) eqn:Hx.
  - destruct (re_digits s) as [ds r]. simpl in *. exact IH.
  - simpl. now intros [= <- _].
Qed.

(** X3: how [Extract_Number_String] cuts a text whose leading run of digits
    is short enough for [int].  It never raises.  A text
    that does not begin with a decimal digit is returned whole, without a
    label.  Otherwise the text is its longest leading run of digits, white
    space, the code returned, and what follows the first line feed, which
    is dropped; the label is the value of the digits and is not negative;
    the code holds no line feed and does not begin with white space. *)
Theorem Extract_Number_String_parts text :
  short_label text ->
  match Extract_Number_String text with
  | Ok (None, code) =>
      code = text /\ forall c t, text = c :: t -> decimal c = None
  | Ok (Some n, code) =>
      exists ds ws tail,
        text = ds ++ ws ++ code ++ tail
        /\ ds <> [] /\ Forall (fun c => is_Some (decimal c)) ds
        /\ n = number ds /\ 0 <= n
        /\ Forall (fun c => isspace c = true) ws
        /\ (ws = [] -> forall c t, code ++ tail = c :: t -> decimal c = None)
        /\ (LF ∉ ws ++ code)
        /\ (forall c t, code = c :: t -> isspace c = false)
        /\ (tail = [] \/ exists t, tail = LF :: t)
  | Raise _ => False
  end.
Proof.
  intros _. rewrite Extract_Number_String_spec.
  destruct (re_digits_spec text) as [Htext Hds].
  pose proof (re_digits_longest text) as Hlong.
  destruct (label text) as [n|] eqn:Hn.
  - pose proof (label_nonneg text n Hn) as Hpos.
    unfold label in Hn.
    destruct (re_digits text) as [ds r]. cbn [fst snd] in *.
    destruct (re_dots_parts r) as [tail [Hr [Hlf Htail]]].
    destruct (lstrip_parts (re_dots r)) as [ws [Hws [Hspace Hhead]]].
    exists ds, ws, tail.
    assert (Hr' : r = ws ++ lstrip (re_dots r) ++ tail)
      by (rewrite app_assoc, <- Hws; exact Hr).
    split; [congruence|].
    split; [destruct ds; [discriminate | discriminate]|].
    split; [exact Hds|].
    split; [destruct ds; [discriminate | now injection Hn]|].
    split; [exact Hpos|]. split; [exact Hspace|].
    split; [intros -> c t Hct; apply (Hlong c t); now rewrite Hr'|].
    split; [now rewrite <- Hws|]. split; [exact Hhead | exact Htail].
  - split; [reflexivity|]. intros c t ->.
    unfold label in Hn. simpl in Hn.
    destruct (decimal c); [|reflexivity].
    destruct (re_digits t); discriminate.
Qed.

End LineParts.

(** ** What the builder raises, and the shape of what it returns *)

Lemma encode_char_cases c :
  (scalar c /\ exists b, encode_char c = Ok b /\ Forall byte b)
  \/ (~ scalar c /\ encode_char c = Raise UnicodeEncodeError).
Proof.
  destruct (decide (0 <= c < 1114112 /\ ~ 55296 <= c <= 57343)) as [Hs | Hn].
  - left. split; [exact Hs | now apply encode_char_scalar].
  - right. split; [exact Hn|]. unfold encode_char.
    destruct (Z.ltb_spec c 0); [reflexivity|].
    destruct (Z.ltb_spec c 128); [exfalso; apply Hn; lia|].
    destruct (Z.ltb_spec c 2048); [exfalso; apply Hn; lia|].
    destruct (Z.ltb_spec c 65536).
    { destruct (Z.leb_spec 55296 c), (Z.leb_spec c 57343); simpl;
        reflexivity || (exfalso; apply Hn; lia). }
    destruct (Z.ltb_spec c 1114112); [exfalso; apply Hn; lia | reflexivity].
Qed.

Lemma encode_utf8_cases s :
  (Forall scalar s /\ encode_utf8 s = Ok (utf8 s) /\ Forall byte (utf8 s))
  \/ (~ Forall scalar s /\ encode_utf8 s = Raise UnicodeEncodeError).
Proof.
  induction s as [|c s IH].
  - left. repeat split; constructor.
  - destruct (encode_char_cases c) as [[Hc [b [Hb Hbb]]] | [Hc Hb]].
    + destruct IH as [[Hs [Hu Hub]] | [Hs Hu]].
      * left. pose proof (Forall_cons_2 _ _ _ Hc Hs) as Hcs.
        split; [exact Hcs | now apply utf8_scalar].
      * right. split; [intros Hcs; apply Hs; now apply Forall_cons in Hcs|].
        simpl. now rewrite Hb, Hu.
    + right. split; [intros Hcs; apply Hc; now apply Forall_cons in Hcs|].
      simpl. now rewrite Hb.
Qed.

Section BuilderEdges.
Context `{UnicodeDecimal}.

Lemma record_cases line :
  LF ∉ line ->
  (record line = Ok (groups line)
   /\ (is_Some (label line) -> Forall scalar (body line)))
  \/ (record line = Raise UnicodeEncodeError
      /\ is_Some (label line) /\ ~ Forall scalar (body line)).
Proof.
  intros Hlf. rewrite record_line by assumption. unfold groups.
  destruct (label line) as [n|]; [|left; split; [reflexivity | now intros []]].
  destruct (encode_utf8_cases (body line)) as [[Hs [-> _]] | [Hs ->]].
  - left. split; [reflexivity | auto].
  - right. split; [reflexivity|]. split; [eauto | exact Hs].
Qed.

Lemma records_cases lines :
  Forall (fun l => LF ∉ l) lines ->
  (records lines = Ok (flat_map groups lines)
   /\ forall line, line ∈ lines -> is_Some (label line) ->
        Forall scalar (body line))
  \/ (records lines = Raise UnicodeEncodeError
      /\ exists line, line ∈ lines /\ is_Some (label line)
                      /\ ~ Forall scalar (body line)).
Proof.
  induction 1 as [|l ls Hl _ IH].
  - left. split; [reflexivity|]. intros line Hin. now apply elem_of_nil in Hin.
  - simpl. destruct (record_cases l Hl) as [[-> Hok] | [-> Hbad]].
    + destruct IH as [[-> Hoks] | [-> [line [Hin Hbad]]]].
      * left. split; [reflexivity|]. intros line Hin.
        apply elem_of_cons in Hin as [-> | Hin]; auto.
      * right. split; [reflexivity|]. exists line.
        split; [now apply list_elem_of_further | exact Hbad].
    + right. split; [reflexivity|]. exists l.
      split; [apply list_elem_of_here | exact Hbad].
Qed.

(** X4: the only error of the builder, on a text whose labels are short
    enough for [int].  [Create_BinData] raises nothing but
    [UnicodeEncodeError], and only when a labelled line holds a character
    without a UTF-8 form after its label; lines without a label are never
    encoded and may hold anything.  When every labelled line can be
    encoded, the builder returns. *)
Theorem the_builder_raises_only_on_bodies text :
  short_labels text ->
  (forall e,
     Create_BinData text = Raise e ->
     e = UnicodeEncodeError
     /\ exists line, line ∈ split LF text /\ is_Some (label line)
                     /\ ~ Forall scalar (body line))
  /\ ((forall line, line ∈ split LF text -> is_Some (label line) ->
                    Forall scalar (body line)) ->
      exists out, Create_BinData text = Ok out).
Proof.
  intros _. rewrite Create_BinData_records.
  destruct (records_cases (split LF text) (split_no_sep LF text))
    as [[-> Hok] | [-> Hbad]]; cbn [rbind].
  - split; [discriminate | eauto].
  - split; [intros e [= <-]; auto|].
    intros Hall. destruct Hbad as [line [Hin [Hlab Hbody]]].
    exfalso. apply Hbody. now apply Hall.
Qed.

Lemma bits_at_least w v : 0 <= v -> (w <= length (bits w v))%nat.
Proof. intros Hv. rewrite bits_length by assumption. lia. Qed.

Lemma groups_wide line :
  (is_Some (label line) -> Forall scalar (body line)) ->
  Forall (fun g => Forall binary g /\ (8 <= length g)%nat) (groups line).
Proof.
  unfold groups. destruct (label line) as [n|] eqn:Hn; [|constructor].
  intros Hs. pose proof (label_nonneg line n Hn) as Hpos.
  pose proof (bits_at_least 16 n Hpos) as Hlen.
  constructor; [split; [apply Forall_take, bits_binary; lia
                       | rewrite length_take; lia]|].
  constructor; [split; [apply Forall_drop, bits_binary; lia
                       | rewrite length_drop; lia]|].
  destruct (utf8_scalar (body line) (Hs (ex_intro _ n eq_refl))) as [_ Hb].
  induction Hb as [|b bs Hb _ IH]; simpl; constructor; [|assumption].
  unfold byte in Hb. split; [apply bits_binary; lia | apply bits_at_least; lia].
Qed.

(** X5: the shape of what the builder returns, whatever the labels and the
    size.  Two header groups, the N data groups, the terminator 00000000;
    every group is a string of at least 8 binary digits; the first header
    group has exactly 8, and the two header groups read as one numeral give
    N + 256. *)
Theorem binary_data_shape text out :
  Create_BinData text = Ok out ->
  exists h0 h1 data,
    out = h0 :: h1 :: data ++ [lit "00000000"]
    /\ Z.of_nat (length data) = data_count text
    /\ length h0 = 8%nat
    /\ group_value (h0 ++ h1) = data_count text + 256
    /\ Forall (fun g => Forall binary g /\ (8 <= length g)%nat) out.
Proof.
  rewrite Create_BinData_records.
  destruct (records_cases (split LF text) (split_no_sep LF text))
    as [[-> Hok] | [-> _]]; cbn [rbind]; [|discriminate].
  intros [= <-]. unfold frame.
  set (data := flat_map groups (split LF text)).
  assert (Hlen : Z.of_nat (length data) = data_count text)
    by apply data_count_length.
  assert (Hpos : 0 <= Z.of_nat (length data) + 256) by lia.
  pose proof (bits_at_least 16 _ Hpos) as Hwide.
  exists (take 8 (bits 16 (Z.of_nat (length data) + 256))),
         (drop 8 (bits 16 (Z.of_nat (length data) + 256))), data.
  split; [reflexivity|]. split; [exact Hlen|].
  split; [rewrite length_take; lia|].
  split; [rewrite take_drop, group_value_bits; lia|].
  constructor; [split; [apply Forall_take, bits_binary; lia
                       | rewrite length_take; lia]|].
  constructor; [split; [apply Forall_drop, bits_binary; lia
                       | rewrite length_drop; lia]|].
  apply Forall_app. split.
  - subst data. apply List.Forall_forall. intros g Hg.
    apply in_flat_map in Hg as [line [Hline Hg]].
    pose proof (groups_wide line (Hok line (proj2 (list_elem_of_In _ _) Hline)))
      as Hw.
    rewrite List.Forall_forall in Hw. now apply Hw.
  - constructor; [|constructor]. split; [|reflexivity].
    apply bits_binary. lia.
Qed.

End BuilderEdges.

(** ** Reading the data back *)

Lemma encode_utf8_app s t :
  encode_utf8 (s ++ t)
  = (a <~ encode_utf8 s; b <~ encode_utf8 t; Ok (a ++ b))%result.
Proof.
  induction s as [|c s IH]; simpl.
  - now destruct (encode_utf8 t).
  - rewrite IH. destruct (encode_char c); [|reflexivity]. simpl.
    destruct (encode_utf8 s); [|reflexivity]. simpl.
    destruct (encode_utf8 t); [|reflexivity]. simpl.
    now rewrite app_assoc.
Qed.

Lemma utf8_CR s : Forall scalar s -> utf8 (s ++ [CR]) = utf8 s ++ [CR].
Proof.
  intros Hs. unfold utf8 at 1. rewrite encode_utf8_app.
  destruct (utf8_scalar s Hs) as [-> _]. reflexivity.
Qed.

(** A byte with its high bit set is not a carriage return. *)
Lemma lor_high_not_CR a b : Z.testbit a 7 = true -> Z.lor a b <> CR.
Proof.
  intros Ha Heq.
  assert (Hbit : Z.testbit (Z.lor a b) 7 = true)
    by (rewrite Z.lor_spec, Ha; reflexivity).
  rewrite Heq in Hbit. discriminate.
Qed.

Lemma encode_char_CR c b : encode_char c = Ok b -> c <> CR -> CR ∉ b.
Proof.
  unfold encode_char. intros Hb Hc Hin.
  assert (Hhigh : forall a x, Z.testbit a 7 = true -> CR <> Z.lor a x)
    by (intros a x Ha Heq; now apply (lor_high_not_CR a x)).
  destruct (c <? 0); [discriminate|].
  destruct (c <? 128).
  { injection Hb as <-. apply list_elem_of_singleton in Hin. congruence. }
  destruct (c <? 2048).
  { injection Hb as <-. repeat (apply elem_of_cons in Hin as [Hin | Hin];
      [now apply Hhigh in Hin|]). now apply elem_of_nil in Hin. }
  destruct (c <? 65536).
  { destruct ((55296 <=? c) && (c <=? 57343)); [discriminate|].
    injection Hb as <-. repeat (apply elem_of_cons in Hin as [Hin | Hin];
      [now apply Hhigh in Hin|]). now apply elem_of_nil in Hin. }
  destruct (c <? 1114112); [|discriminate].
  injection Hb as <-. repeat (apply elem_of_cons in Hin as [Hin | Hin];
    [now apply Hhigh in Hin|]). now apply elem_of_nil in Hin.
Qed.

Lemma utf8_no_CR s : CR ∉ s -> CR ∉ utf8 s.
Proof.
  induction s as [|c s IH]; [intros _; apply not_elem_of_nil|].
  rewrite not_elem_of_cons. intros [Hc Hs]. unfold utf8 in *. simpl.
  destruct (encode_char c) as [b|] eqn:Hb; [|apply not_elem_of_nil]. simpl.
  destruct (encode_utf8 s) as [bs|]; [|apply not_elem_of_nil]. simpl.
  rewrite not_elem_of_app. split; [|now apply IH].
  apply (encode_char_CR c b Hb). congruence.
Qed.

Lemma receive_body n acc bs rest :
  CR ∉ bs ->
  receive (Body n acc) (bs ++ CR :: rest)
  = option_map (cons (n, rev acc ++ bs)) (receive LabelHigh rest).
Proof.
  revert acc. induction bs as [|b bs IH]; intros acc Hbs.
  - simpl. now rewrite app_nil_r.
  - apply not_elem_of_cons in Hbs as [Hb Hbs]. simpl.
    destruct (Z.eqb_spec b CR) as [-> | _]; [congruence|].
    rewrite IH by assumption. simpl. now rewrite <- app_assoc.
Qed.

Lemma group_value_bytes bs :
  Forall byte bs -> map group_value (map (bits 8) bs) = bs.
Proof.
  induction 1 as [|b bs Hb _ IH]; simpl; [reflexivity|].
  unfold byte in Hb. rewrite group_value_bits by lia. now rewrite IH.
Qed.

Lemma not_elem_Forall (x : Z) l : x ∉ l <-> Forall (fun c => c <> x) l.
Proof.
  induction l as [|c l IH].
  - split; [constructor | intros _; apply not_elem_of_nil].
  - rewrite not_elem_of_cons, Forall_cons, IH.
    split; intros []; split; auto.
Qed.

Section Reading.
Context `{UnicodeDecimal}.

Lemma statement_no_CR line : CR ∉ line -> CR ∉ lstrip (re_digits line).2.
Proof.
  intros Hl. destruct (re_digits_spec line) as [Hs _].
  destruct (lstrip_suffix (re_digits line).2) as [p Hp].
  rewrite Hs, Hp, !not_elem_of_app in Hl. tauto.
Qed.

Lemma statement_scalar line :
  Forall scalar line -> Forall scalar (lstrip (re_digits line).2).
Proof.
  intros Hl. apply body_scalar in Hl. unfold body in Hl.
  now apply Forall_app in Hl as [Hl _].
Qed.

Lemma receive_groups lines :
  Forall (Forall scalar) lines ->
  Forall (fun l => CR ∉ l) lines ->
  Forall (fun l => forall n, label l = Some n -> n <= 65535) lines ->
  receive LabelHigh (map group_value (flat_map groups lines))
  = Some (map (fun e => (e.1, utf8 e.2))
            (omap (fun line =>
                     match label line with
                     | Some n => Some (n, lstrip (re_digits line).2)
                     | None => None
                     end) lines)).
Proof.
  induction lines as [|l ls IH]; intros Hs Hcr Hfit; [reflexivity|].
  apply Forall_cons in Hs as [Hl Hs]. apply Forall_cons in Hcr as [Hlcr Hcr].
  apply Forall_cons in Hfit as [Hlfit Hfit].
  specialize (IH Hs Hcr Hfit).
  cbn [flat_map omap list_omap]. unfold groups at 1.
  destruct (label l) as [n|] eqn:Hn; [|exact IH].
  pose proof (label_nonneg l n Hn) as Hpos. specialize (Hlfit n eq_refl).
  pose proof (statement_scalar l Hl) as Hst.
  destruct (utf8_scalar (body l) (body_scalar l Hl)) as [_ Hbytes].
  rewrite map_app, map_app, group_value_bytes by assumption.
  unfold body. rewrite utf8_CR by assumption.
  cbn [map app receive]. rewrite <- app_assoc. cbn [app].
  rewrite receive_body by now apply utf8_no_CR, statement_no_CR.
  rewrite IH. cbn [option_map rev app map fst snd].
  rewrite take_bits16, drop_bits16 by lia.
  fold (be16 (byte_group (n / 256)) (byte_group n)).
  rewrite be16_split by lia. reflexivity.
Qed.

(** X6: the data groups read back as the listing.  For the text of a file
    without a carriage return whose labels are at most 65535 and have at
    most 640 digits, the builder
    returns the header, data groups and the terminator, and a receiver that
    takes two bytes as a label, high byte first, and the bytes up to the
    next carriage return as a statement reads from the data groups exactly
    the labelled lines in order: each label with the UTF-8 bytes of its
    left-trimmed statement. *)
Theorem data_groups_read_back text :
  Forall scalar text -> CR ∉ text -> labels_fit text -> short_labels text ->
  exists h0 h1 data,
    Create_BinData text = Ok (h0 :: h1 :: data ++ [lit "00000000"])
    /\ receive LabelHigh (map group_value data)
       = Some (map (fun e => (e.1, utf8 e.2)) (listing text)).
Proof.
  intros Hs Hcr Hfit _. rewrite Create_BinData_groups by assumption.
  unfold frame. do 3 eexists. split; [reflexivity|].
  apply receive_groups.
  - now apply split_Forall.
  - apply not_elem_Forall in Hcr.
    eapply Forall_impl; [apply (split_Forall _ LF text Hcr)|].
    intros l Hl. now apply not_elem_Forall.
  - exact Hfit.
Qed.

End Reading.

(** ** Decoding pulses *)

Lemma square_length lo hi n : length (square lo hi n) = (2 * n)%nat.
Proof. unfold square. rewrite length_app, !repeat_length. lia. Qed.

(** A shorter square wave is no beginning of a longer one, nor the longer
    of the shorter. *)
Lemma square_not_prefix lo hi n1 n2 :
  lo <> hi -> (0 < n1)%nat -> n1 <> n2 ->
  ~ square lo hi n1 `prefix_of` square lo hi n2.
Proof.
  intros Hne Hpos Hn Hpre.
  destruct (Nat.lt_total n1 n2) as [Hlt | [Heq | Hgt]]; [|congruence|].
  - assert (H1 : square lo hi n1 !! n1 = Some hi).
    { unfold square. rewrite lookup_app_r by (rewrite repeat_length; lia).
      rewrite repeat_length, Nat.sub_diag. destruct n1; [lia | reflexivity]. }
    apply (prefix_lookup_Some _ _ _ _ H1) in Hpre.
    unfold square in Hpre. rewrite lookup_app_l in Hpre
      by (rewrite repeat_length; lia).
    apply lookup_lt_Some in Hpre as Hlen.
    assert (H2 : repeat lo n2 !! n1 = Some lo).
    { clear -Hlt. revert n1 Hlt. induction n2; intros [|n1] Hlt; simpl;
        try lia; try reflexivity. apply IHn2. lia. }
    congruence.
  - apply prefix_length in Hpre. rewrite !square_length in Hpre. lia.
Qed.

Section Decoding.
Variables one zero : bytes.

Local Abbreviation pulse := (pulse one zero).
Local Abbreviation render := (render one zero).

(** When neither pulse begins with the other, a train of pulses has one
    reading only. *)
Lemma render_inj bs bs' :
  ~ one `prefix_of` zero -> ~ zero `prefix_of` one ->
  render bs = render bs' -> bs = bs'.
Proof.
  intros H10 H01.
  assert (Hne : forall b, pulse b <> []).
  { intros [] Hb; simpl in Hb; subst; [apply H10 | apply H01]; apply prefix_nil. }
  revert bs'. induction bs as [|b bs IH]; intros [|b' bs'] Heq.
  - reflexivity.
  - exfalso. symmetry in Heq. apply app_eq_nil in Heq as [Heq _].
    now apply (Hne b').
  - exfalso. apply app_eq_nil in Heq as [Heq _]. now apply (Hne b).
  - change (pulse b ++ render bs = pulse b' ++ render bs') in Heq.
    destruct b, b'.
    + apply app_inv_head in Heq. f_equal. now apply IH.
    + exfalso. simpl in Heq.
      destruct (prefix_weak_total one zero (one ++ render bs)) as [Hp | Hp];
        [now exists (render bs) | rewrite Heq; now exists (render bs') | |];
        auto.
    + exfalso. simpl in Heq.
      destruct (prefix_weak_total one zero (one ++ render bs')) as [Hp | Hp];
        [now exists (render bs') | rewrite <- Heq; now exists (render bs) | |];
        auto.
    + apply app_inv_head in Heq. f_equal. now apply IH.
Qed.

End Decoding.

Lemma render_length one zero bs :
  Z.of_nat (length (render one zero bs))
  = popcount bs * Z.of_nat (length one)
    + (Z.of_nat (length bs) - popcount bs) * Z.of_nat (length zero).
Proof.
  induction bs as [|b bs IH]; [reflexivity|].
  change (render one zero (b :: bs)) with (pulse one zero b ++ render one zero bs).
  rewrite length_app, Nat2Z.inj_add, IH.
  destruct b; cbn [pulse popcount foldr Z.b2z length]; fold (popcount bs); lia.
Qed.

Lemma concat_inj_length {A} (k : nat) (ls ls' : list (list A)) :
  (0 < k)%nat ->
  Forall (fun l => length l = k) ls -> Forall (fun l => length l = k) ls' ->
  concat ls = concat ls' -> ls = ls'.
Proof.
  intros Hk Hls. revert ls'.
  induction Hls as [|l ls Hl _ IH]; intros ls' Hls' Heq.
  - destruct Hls' as [|l' ls' Hl' _]; [reflexivity|].
    simpl in Heq. symmetry in Heq. apply app_eq_nil in Heq as [-> _].
    simpl in Hl'. lia.
  - destruct Hls' as [|l' ls' Hl' Hls'].
    + simpl in Heq. apply app_eq_nil in Heq as [-> _]. simpl in Hl. lia.
    + simpl in Heq. apply app_inj_1 in Heq as [-> Heq]; [|congruence].
      f_equal. now apply IH.
Qed.

Lemma bit_of_inj g g' :
  Forall binary g -> Forall binary g' ->
  map bit_of g = map bit_of g' -> g = g'.
Proof.
  intros Hg. revert g'. induction Hg as [|c g Hc _ IH]; intros g' Hg' Heq.
  - destruct g'; [reflexivity | discriminate].
  - destruct Hg' as [|c' g' Hc' Hg']; [discriminate|].
    injection Heq as Hb Heq. f_equal; [|now apply IH].
    destruct Hc as [-> | ->], Hc' as [-> | ->];
      reflexivity || discriminate.
Qed.

Section FrameTheory.
Context `{UnicodeDecimal}.
Variable m : module.
Variables one zero : bytes.

Local Abbreviation pulse := (pulse one zero).
Local Abbreviation render := (render one zero).
Local Abbreviation frame_of := (frame_of m one zero).
Local Abbreviation loaded := (loaded m one zero).

(** The bits of the frame of a string. *)
Lemma flat_map_frame_of data :
  flat_map frame_of data
  = render (concat (map (fun g =>
              negb (STARTBIT (vars m) =? 0)
                :: map bit_of g
                ++ [spec_parity (PARITY (vars m)) (popcount (map bit_of g))])
            data)).
Proof.
  induction data as [|g data IH]; [reflexivity|].
  cbn [flat_map map concat]. rewrite render_app, IH. reflexivity.
Qed.

(** Frames of ByteGroups have one reading only. *)
Lemma frames_inj data data' :
  ~ one `prefix_of` zero -> ~ zero `prefix_of` one ->
  Forall ByteGroup data -> Forall ByteGroup data' ->
  flat_map frame_of data = flat_map frame_of data' ->
  data = data'.
Proof.
  intros H10 H01 Hd Hd' Heq. rewrite !flat_map_frame_of in Heq.
  apply render_inj in Heq; [|assumption..].
  apply (concat_inj_length 10) in Heq; [|lia|..].
  - revert data' Hd' Heq. induction Hd as [|g data Hg _ IH];
      intros data' Hd' Heq.
    + destruct data'; [reflexivity | discriminate].
    + destruct Hd' as [|g' data' Hg' Hd']; [discriminate|].
      cbn [map] in Heq. injection Heq as Hbits Hrest.
      apply app_inj_tail in Hbits as [Hbits _].
      f_equal; [|now apply IH].
      apply bit_of_inj; [apply Hg | apply Hg' | assumption].
  - apply Forall_map. apply (Forall_impl _ _ _ Hd). intros g [Hlen _].
    cbn [length]. rewrite length_app, length_map, Hlen. reflexivity.
  - apply Forall_map. apply (Forall_impl _ _ _ Hd'). intros g [Hlen _].
    cbn [length]. rewrite length_app, length_map, Hlen. reflexivity.
Qed.

(** X7: the samples of a file tell its ByteGroups.  When neither pulse
    begins with the other, [Write_Wav] on two sequences of ByteGroups, each
    within what a WAV header can hold, writes the same samples only if the
    sequences are the same. *)
Theorem written_samples_determine_ByteGroups st fs TargetFile data data' :
  loaded st ->
  ~ one `prefix_of` zero -> ~ zero `prefix_of` one ->
  0 < FRAMERATE (vars m) -> 0 <= LEADER (vars m) ->
  Forall ByteGroup data -> Forall ByteGroup data' ->
  fits_wav m one zero data -> fits_wav m one zero data' ->
  exists st1 st2 w w',
    Write_Wav m TargetFile data {| store := st; files := fs |}
    = Ok (tt, {| store := st ++ st1; files := <[TargetFile := w]> fs |})
    /\ Write_Wav m TargetFile data' {| store := st; files := fs |}
       = Ok (tt, {| store := st ++ st2; files := <[TargetFile := w']> fs |})
    /\ (frames w = frames w' -> data = data').
Proof.
  intros Hl H10 H01 Hrate Hlead Hd Hd' _ _.
  assert (Hone : one <> []) by (intros ->; apply H10, prefix_nil).
  assert (Hbin : forall l, Forall ByteGroup l -> Forall (Forall binary) l)
    by (intros l Hall; apply (Forall_impl _ _ _ Hall); now intros g [_ Hg]).
  destruct (Write_Wav_run m one zero st fs TargetFile data
              Hl Hone Hrate Hlead (Hbin _ Hd)) as [st1 H1].
  destruct (Write_Wav_run m one zero st fs TargetFile data'
              Hl Hone Hrate Hlead (Hbin _ Hd')) as [st2 H2].
  eexists st1, st2, _, _. split; [exact H1|]. split; [exact H2|].
  cbn [frames]. intros Heq.
  apply app_inv_head, app_inv_tail in Heq. now apply frames_inj.
Qed.

(** X8: the length of a frame in samples.  On a string of k binary digits
    [Encode_Data] returns a new object of k + 2 pulses, of which the start
    bit when it is 1, the 1 digits and the parity bit when it is 1 are one
    pulses and the others zero pulses. *)
Theorem frame_length st fs g :
  loaded st -> Forall binary g ->
  exists encoded,
    Encode_Data m g {| store := st; files := fs |}
    = Ok (length st, {| store := st ++ [encoded]; files := fs |})
    /\ let ones :=
         Z.b2z (negb (STARTBIT (vars m) =? 0))
         + popcount (map bit_of g)
         + Z.b2z (spec_parity (PARITY (vars m)) (popcount (map bit_of g))) in
       Z.of_nat (length encoded)
       = ones * Z.of_nat (length one)
         + (Z.of_nat (length g) + 2 - ones) * Z.of_nat (length zero).
Proof.
  intros Hl Hg. exists (frame_of g).
  split; [exact (Encode_Data_run m one zero st fs g Hl Hg)|].
  intros ones. unfold frame_of. rewrite render_length.
  assert (Hpop : forall bs b, popcount (bs ++ [b]) = popcount bs + Z.b2z b).
  { induction bs as [|x bs IH]; intros b; simpl; [lia|].
    fold (popcount bs). fold (popcount (bs ++ [b])). rewrite IH. lia. }
  cbn [popcount foldr length].
  fold (popcount (map bit_of g
          ++ [spec_parity (PARITY (vars m)) (popcount (map bit_of g))])).
  rewrite Hpop, length_app, length_map. cbn [length]. subst ones. lia.
Qed.

End FrameTheory.

(** X9: what the generator builds can be decoded.  Two frequencies whose
    half-cycle counts are positive and differ, with an amplitude of at
    least 2, give pulses of which neither begins with the other: a train of
    such pulses determines its bits. *)
Theorem square_pulses_decode g f1 f0 r :
  0 < f1 -> 0 < f0 -> 0 <= r -> fits32 f1 -> fits32 f0 -> fits32 r ->
  0 < r / f1 / 2 -> 0 < r / f0 / 2 -> r / f1 / 2 <> r / f0 / 2 ->
  2 <= AMPLITUDE g ->
  0 <= CENTER g - AMPLITUDE g / 2 -> CENTER g + AMPLITUDE g / 2 < 256 ->
  exists one zero,
    make_square_wave g f1 r = Ok one
    /\ make_square_wave g f0 r = Ok zero
    /\ forall bs bs', render one zero bs = render one zero bs' -> bs = bs'.
Proof.
  intros Hf1 Hf0 Hr _ _ _ Hn1 Hn0 Hne Ha Hlo Hhi.
  rewrite !make_square_wave_ok by (assumption || lia).
  eexists _, _. split; [reflexivity|]. split; [reflexivity|].
  assert (Hlevels : CENTER g - AMPLITUDE g / 2 <> CENTER g + AMPLITUDE g / 2).
  { assert (1 <= AMPLITUDE g / 2) by (apply Z.div_le_lower_bound; lia). lia. }
  intros bs bs'. apply render_inj.
  - apply (square_not_prefix _ _ _ _ Hlevels); lia.
  - apply (square_not_prefix _ _ _ _ Hlevels); lia.
Qed.

(** X10: frequencies with the same half-cycle count give the same pulse, and
    then the samples no longer tell a 1 from a 0: trains of equally many
    pulses are equal whatever their bits. *)
Theorem equal_counts_lose_the_bits g f1 f0 r :
  0 < f1 -> 0 < f0 -> 0 <= r -> fits32 f1 -> fits32 f0 -> fits32 r ->
  r / f1 / 2 = r / f0 / 2 ->
  make_square_wave g f1 r = make_square_wave g f0 r
  /\ forall w bs bs',
       length bs = length bs' -> render w w bs = render w w bs'.
Proof.
  intros Hf1 Hf0 Hr _ _ _ Hn. split.
  - unfold make_square_wave. rewrite !half_cycle_count by assumption.
    now rewrite Hn.
  - intros w bs. induction bs as [|b bs IH]; intros [|b' bs'] Hlen;
      try discriminate; [reflexivity|].
    injection Hlen as Hlen.
    change (pulse w w b ++ render w w bs = pulse w w b' ++ render w w bs').
    rewrite (IH bs' Hlen). now destruct b, b'.
Qed.

Section DigitTheory.
Context `{UnicodeDecimal}.
Variable m : module.
Variables one zero : bytes.

Local Abbreviation pulse := (pulse one zero).
Local Abbreviation render := (render one zero).
Local Abbreviation loaded := (loaded m one zero).

(** One turn of the loop on a decimal digit. *)
Lemma digit_step st fs c p enc :
  loaded st -> is_Some (decimal c) ->
  (v <- lift (int [c]) ;;
   if v =? 1
   then (extend (length st) (one_pulse m) ;; ret (p + 1))
   else (extend (length st) (zero_pulse m) ;; ret p))%prog
    {| store := st ++ [enc]; files := fs |}
  = Ok (p + Z.b2z (digit_bit c),
        {| store := st ++ [enc ++ pulse (digit_bit c)]; files := fs |}).
Proof.
  intros [Hone Hzero] [d Hd]. unfold digit_bit. rewrite Hd.
  rewrite (bind_ok _ _ _ d {| store := st ++ [enc]; files := fs |})
    by (unfold lift, int, int_acc; rewrite Hd; simpl; do 2 f_equal; lia).
  destruct (d =? 1); cbn [Z.b2z pulse].
  - rewrite (bind_ok _ _ _ _ _ (extend_newest _ _ _ _ _ Hone)). reflexivity.
  - rewrite (bind_ok _ _ _ _ _ (extend_newest _ _ _ _ _ Hzero)).
    unfold ret. now rewrite Z.add_0_r.
Qed.

Lemma digits_loop st fs g p enc :
  loaded st -> Forall (fun c => is_Some (decimal c)) g ->
  for_each g
    (fun p bit =>
       v <- lift (int [bit]) ;;
       if v =? 1
       then (extend (length st) (one_pulse m) ;; ret (p + 1))
       else (extend (length st) (zero_pulse m) ;; ret p))%prog
    p {| store := st ++ [enc]; files := fs |}
  = Ok (p + popcount (map digit_bit g),
        {| store := st ++ [enc ++ render (map digit_bit g)]; files := fs |}).
Proof.
  intros Hl Hg. revert p enc.
  induction Hg as [|c g Hc _ IH]; intros p enc; cbn [for_each].
  - unfold ret. simpl. now rewrite Z.add_0_r, app_nil_r.
  - rewrite (bind_ok _ _ _ _ _ (digit_step st fs c p enc Hl Hc)).
    rewrite IH. simpl. rewrite <- app_assoc. do 2 f_equal. lia.
Qed.

(** The loop stops at the first character that is no decimal digit. *)
Lemma digits_loop_raise st fs pre c post p enc :
  loaded st -> Forall (fun c => is_Some (decimal c)) pre -> decimal c = None ->
  for_each (pre ++ c :: post)
    (fun p bit =>
       v <- lift (int [bit]) ;;
       if v =? 1
       then (extend (length st) (one_pulse m) ;; ret (p + 1))
       else (extend (length st) (zero_pulse m) ;; ret p))%prog
    p {| store := st ++ [enc]; files := fs |}
  = Raise ValueError.
Proof.
  intros Hl Hpre Hc. revert p enc.
  induction Hpre as [|d pre Hd _ IH]; intros p enc; cbn [for_each app].
  - unfold bind at 1. unfold bind at 1. unfold lift, int, int_acc.
    now rewrite Hc.
  - rewrite (bind_ok _ _ _ _ _ (digit_step st fs d p enc Hl Hd)). apply IH.
Qed.

Lemma start_pulse_ok st fs :
  loaded st ->
  (if STARTBIT (vars m) =? 0
   then (z <- read (zero_pulse m) ;; new_bytearray z)
   else (o <- read (one_pulse m) ;; new_bytearray o))%prog
    {| store := st; files := fs |}
  = Ok (length st,
        {| store := st ++ [pulse (negb (STARTBIT (vars m) =? 0))];
           files := fs |}).
Proof.
  intros [Hone Hzero]. destruct (STARTBIT (vars m) =? 0); simpl;
    [rewrite (bind_ok _ _ _ zero {| store := st; files := fs |})
       by now apply read_ok
    |rewrite (bind_ok _ _ _ one {| store := st; files := fs |})
       by now apply read_ok]; reflexivity.
Qed.

(** X11: the frame encoder on any string of decimal digits.  It never checks
    that a group has 8 characters or that they are 0 or 1: every digit that
    [int] reads as 1 gives a one pulse, every other digit a zero pulse, and
    a string of k digits gives k + 2 pulses. *)
Theorem Encode_Data_on_digits st fs g :
  loaded st -> Forall (fun c => is_Some (decimal c)) g ->
  Encode_Data m g {| store := st; files := fs |}
  = Ok (length st,
        {| store :=
             st ++ [render (negb (STARTBIT (vars m) =? 0)
                              :: map digit_bit g
                              ++ [spec_parity (PARITY (vars m))
                                    (popcount (map digit_bit g))])];
           files := fs |}).
Proof.
  intros Hl Hg. pose proof Hl as [Hone Hzero]. unfold Encode_Data.
  rewrite (bind_ok _ _ _ _ _ (start_pulse_ok st fs Hl)).
  rewrite (bind_ok _ _ _ _ _ (digits_loop st fs g 0 _ Hl Hg)).
  rewrite Z.add_0_l.
  set (start := negb (STARTBIT (vars m) =? 0)).
  set (p := popcount (map digit_bit g)).
  rewrite (bind_ok _ _ _ tt
     {| store := st ++ [(pulse start ++ render (map digit_bit g))
                          ++ pulse (spec_parity (PARITY (vars m)) p)];
        files := fs |}).
  - unfold ret. do 4 f_equal.
    change (start :: ?l ++ ?r) with ((start :: l) ++ r).
    now rewrite render_snoc.
  - rewrite <- parity_branches.
    destruct (PARITY (vars m) =? 0).
    + destruct ((p =? 0) || is_even p); now apply extend_newest.
    + destruct (bool_eq_int (is_even p) 0); now apply extend_newest.
Qed.

(** X12: the frame encoder on a string with a character that is no decimal
    digit: [int] raises [ValueError], and the encoder with it. *)
Theorem Encode_Data_not_a_digit st fs pre c post :
  loaded st -> Forall (fun c => is_Some (decimal c)) pre -> decimal c = None ->
  Encode_Data m (pre ++ c :: post) {| store := st; files := fs |}
  = Raise ValueError.
Proof.
  intros Hl Hpre Hc. unfold Encode_Data.
  rewrite (bind_ok _ _ _ _ _ (start_pulse_ok st fs Hl)).
  unfold bind at 1.
  now rewrite (digits_loop_raise st fs pre c post 0 _ Hl Hpre Hc).
Qed.

End DigitTheory.

(** ** Errors and reruns of the stream assembler *)

Section AssemblerEdges.
Context `{UnicodeDecimal}.
Variable m : module.
Variables one zero : bytes.

(** X13: an empty one pulse stops the assembler.  With a one pulse of no
    samples the leader count divides by zero: [Write_Wav] raises
    [ZeroDivisionError] whatever the data. *)
Theorem empty_one_pulse_divides_by_zero st fs TargetFile Binary_Data :
  st !! one_pulse m = Some [] ->
  0 < FRAMERATE (vars m) ->
  Write_Wav m TargetFile Binary_Data {| store := st; files := fs |}
  = Raise ZeroDivisionError.
Proof.
  intros H1 Hrate. unfold Write_Wav.
  rewrite (bind_ok _ _ _ TargetFile
    {| store := st;
       files := <[TargetFile := {| nchannels := 0; sampwidth := 0;
                                   framerate := 0; frames := [] |}]> fs |})
    by reflexivity.
  rewrite (bind_ok _ _ _ tt
    {| store := st;
       files := <[TargetFile := {| nchannels := 1; sampwidth := 0;
                                   framerate := 0; frames := [] |}]> fs |}).
  2:{ unfold setnchannels. simpl.
      erewrite wave_update_ok by apply lookup_insert_eq.
      simpl. now rewrite insert_insert_eq. }
  rewrite (bind_ok _ _ _ tt
    {| store := st;
       files := <[TargetFile := {| nchannels := 1; sampwidth := 1;
                                   framerate := 0; frames := [] |}]> fs |}).
  2:{ unfold setsampwidth. simpl.
      erewrite wave_update_ok by apply lookup_insert_eq.
      simpl. now rewrite insert_insert_eq. }
  rewrite (bind_ok _ _ _ tt
    {| store := st;
       files := <[TargetFile := {| nchannels := 1; sampwidth := 1;
                                   framerate := FRAMERATE (vars m);
                                   frames := [] |}]> fs |}).
  2:{ unfold setframerate. destruct (Z.leb_spec (FRAMERATE (vars m)) 0); [lia|].
      erewrite wave_update_ok by apply lookup_insert_eq.
      simpl. now rewrite insert_insert_eq. }
  rewrite (bind_ok _ _ _ _ _ (read_ok _ _ _ _ H1)).
  reflexivity.
Qed.

(** X14: a frame rate that is not positive is refused by the [wave] writer
    before anything is written. *)
Theorem bad_frame_rate_is_refused st fs TargetFile Binary_Data :
  FRAMERATE (vars m) <= 0 ->
  Write_Wav m TargetFile Binary_Data {| store := st; files := fs |}
  = Raise WaveError.
Proof.
  intros Hrate. unfold Write_Wav.
  rewrite (bind_ok _ _ _ TargetFile
    {| store := st;
       files := <[TargetFile := {| nchannels := 0; sampwidth := 0;
                                   framerate := 0; frames := [] |}]> fs |})
    by reflexivity.
  rewrite (bind_ok _ _ _ tt
    {| store := st;
       files := <[TargetFile := {| nchannels := 1; sampwidth := 0;
                                   framerate := 0; frames := [] |}]> fs |}).
  2:{ unfold setnchannels. simpl.
      erewrite wave_update_ok by apply lookup_insert_eq.
      simpl. now rewrite insert_insert_eq. }
  rewrite (bind_ok _ _ _ tt
    {| store := st;
       files := <[TargetFile := {| nchannels := 1; sampwidth := 1;
                                   framerate := 0; frames := [] |}]> fs |}).
  2:{ unfold setsampwidth. simpl.
      erewrite wave_update_ok by apply lookup_insert_eq.
      simpl. now rewrite insert_insert_eq. }
  unfold bind at 1. unfold setframerate.
  destruct (Z.leb_spec (FRAMERATE (vars m)) 0); [reflexivity | lia].
Qed.

(** X15: writing again gives the same file.  [Write_Wav] starts its file
    afresh: whatever was under the path is replaced, other files are left
    alone, and a second run with the same data leaves the same files as
    the first.  The rate and the samples are what a WAV header can
    hold. *)
Theorem rewriting_gives_the_same_file st fs TargetFile Binary_Data old :
  loaded m one zero st ->
  one <> [] ->
  0 < FRAMERATE (vars m) ->
  0 <= LEADER (vars m) ->
  Forall (Forall binary) Binary_Data ->
  fits_wav m one zero Binary_Data ->
  exists written,
    (exists st1 st2,
       Write_Wav m TargetFile Binary_Data {| store := st; files := fs |}
       = Ok (tt, {| store := st ++ st1;
                    files := <[TargetFile := written]> fs |})
       /\ Write_Wav m TargetFile Binary_Data
            {| store := st ++ st1; files := <[TargetFile := written]> fs |}
          = Ok (tt, {| store := (st ++ st1) ++ st2;
                       files := <[TargetFile := written]> fs |}))
    /\ (exists st1,
          Write_Wav m TargetFile Binary_Data
            {| store := st; files := <[TargetFile := old]> fs |}
          = Ok (tt, {| store := st ++ st1;
                       files := <[TargetFile := written]> fs |}))
    /\ forall path, path <> TargetFile ->
         (<[TargetFile := written]> fs) !! path = fs !! path.
Proof.
  intros Hl Hone Hrate Hlead Hdata _.
  destruct (Write_Wav_run m one zero st fs TargetFile Binary_Data
              Hl Hone Hrate Hlead Hdata) as [st1 H1].
  match type of H1 with
  | _ = Ok (_, {| store := _; files := <[_ := ?w]> _ |}) => set (written := w) in *
  end.
  exists written. split; [|split].
  - exists st1.
    destruct (Write_Wav_run m one zero (st ++ st1) (<[TargetFile := written]> fs)
                TargetFile Binary_Data
                (loaded_app m one zero st st1 Hl) Hone Hrate Hlead Hdata)
      as [st2 H2].
    rewrite insert_insert_eq in H2.
    exists st2. split; [exact H1 | exact H2].
  - destruct (Write_Wav_run m one zero st (<[TargetFile := old]> fs)
                TargetFile Binary_Data Hl Hone Hrate Hlead Hdata)
      as [st1' H1'].
    rewrite insert_insert_eq in H1'. exists st1'. exact H1'.
  - intros path Hp. now apply lookup_insert_ne.
Qed.

End AssemblerEdges.

(** ** The script *)

Section ScriptTheory.
Context `{UnicodeDecimal}.

(** X16: the frequencies and the amplitude asked at the prompts change
    nothing.  The pulses are built before the prompts and never again:
    whatever is answered for the two frequencies and the amplitude, the
    script does the same. *)
Theorem frequency_prompts_change_nothing a f1 f0 amplitude sources s :
  main {| ans_ONES_FREQ := f1; ans_ZERO_FREQ := f0;
          ans_FRAMERATE := ans_FRAMERATE a; ans_AMPLITUDE := amplitude;
          ans_LEADER := ans_LEADER a; ans_STARTBIT := ans_STARTBIT a;
          ans_PARITY := ans_PARITY a; ans_proceed := ans_proceed a |}
    sources s
  = main a sources s.
Proof.
  unfold main, bind. destruct (import s) as [[m0 s0]|e]; [|reflexivity].
  cbn [ans_proceed]. destruct (ans_proceed a); reflexivity.
Qed.

Lemma Create_BinData_frame text :
  Forall scalar text ->
  Create_BinData text = Ok (frame (flat_map groups (split LF text)))
  /\ Forall (Forall binary) (frame (flat_map groups (split LF text))).
Proof.
  intros Hs. destruct (Create_BinData_binary text Hs) as [data [Hd Hb]].
  rewrite Create_BinData_groups in Hd by assumption.
  injection Hd as <-. split; [now apply Create_BinData_groups | assumption].
Qed.

(** X17: what the builder returns, the assembler accepts.  For the text of
    a file already read, whatever its labels and its size (labels above
    65535 and groups of more than 8 digits included), the groups
    [Create_BinData] returns are strings of binary digits, and [Write_Wav]
    on them raises nothing and writes leader, frames and trailer.  The
    labels have at most 640 digits; the rate and the samples are what a
    WAV header can hold. *)
Theorem built_data_is_written m one zero st fs TargetFile text :
  loaded m one zero st ->
  one <> [] ->
  0 < FRAMERATE (vars m) ->
  0 <= LEADER (vars m) ->
  Forall scalar text ->
  short_labels text ->
  fits_wav m one zero (frame (flat_map groups (split LF text))) ->
  exists Binary_Data st',
    Create_BinData text = Ok Binary_Data
    /\ Forall (Forall binary) Binary_Data
    /\ Write_Wav m TargetFile Binary_Data {| store := st; files := fs |}
       = Ok (tt,
             {| store := st ++ st';
                files :=
                  <[TargetFile :=
                      {| nchannels := 1; sampwidth := 1;
                         framerate := FRAMERATE (vars m);
                         frames := stream m one zero Binary_Data |}]> fs |}).
Proof.
  intros Hl Hone Hrate Hlead Hs _ _.
  destruct (Create_BinData_frame text Hs) as [Hd Hb].
  destruct (Write_Wav_run m one zero st fs TargetFile
              (frame (flat_map groups (split LF text)))
              Hl Hone Hrate Hlead Hb) as [st' Hw].
  exists (frame (flat_map groups (split LF text))), st'.
  split; [exact Hd|]. split; [exact Hb | exact Hw].
Qed.

End ScriptTheory.

Lemma stream_length m one zero data :
  0 <= leader_count m one ->
  Z.of_nat (length (stream m one zero data))
  = leader_count m one * Z.of_nat (length one)
    + Z.of_nat (length (flat_map (frame_of m one zero) data))
    + 3 * Z.of_nat (length zero).
Proof.
  intros Hn. unfold stream. rewrite !length_app.
  assert (Hrep : forall k, length (concat (repeat one k)) = (k * length one)%nat).
  { induction k as [|k IH]; simpl; [reflexivity|]. rewrite length_app, IH. lia. }
  rewrite Hrep. lia.
Qed.

Lemma fits_wav_check m one zero data :
  0 <= leader_count m one ->
  fits_wavb m one zero data = true -> fits_wav m one zero data.
Proof.
  intros Hn Hb. unfold fits_wavb in Hb.
  apply andb_prop in Hb as [Hb Hlen]. apply andb_prop in Hb as [Hrate Hone].
  apply Z.ltb_lt in Hrate, Hone, Hlen.
  split; [exact Hrate|]. split; [unfold fits32; lia|].
  rewrite stream_length by assumption. exact Hlen.
Qed.

Lemma short_labels_check `{UnicodeDecimal} text :
  forallb short_labelb (split LF text) = true -> short_labels text.
Proof.
  intros Hall. apply List.Forall_forall. intros l Hl.
  rewrite forallb_forall in Hall. apply Hall in Hl.
  now apply Nat.leb_le in Hl.
Qed.

(** ** Concrete runs

    On ASCII text the ASCII digits decide. *)

Section Runs.
#[local] Existing Instance ascii_digits.

Lemma square_wave_shape_witness :
  0 < 2400 /\ 0 <= 22050 /\ 22050 / 2400 / 2 = 4
  /\ exists wave,
       make_square_wave defaults 2400 22050 = Ok wave
       /\ Z.of_nat (length wave) = 2 * 4
       /\ take (Z.to_nat 4) wave = repeat (128 - Z.quot 225 2) (Z.to_nat 4)
       /\ drop (Z.to_nat 4) wave = repeat (128 + Z.quot 225 2) (Z.to_nat 4).
Proof.
  split; [lia|]. split; [lia|]. split; [reflexivity|].
  apply (square_wave_shape defaults 2400 22050 4);
    (reflexivity || (vm_compute; discriminate)).
Defined.

Lemma zero_half_cycle_is_accepted_witness :
  0 < 9600 /\ 0 <= 4800 /\ 4800 / 9600 / 2 = 0
  /\ make_square_wave defaults 9600 4800 = Ok [].
Proof.
  split; [lia|]. split; [lia|]. split; [reflexivity|].
  apply (zero_half_cycle_is_accepted defaults 9600 4800);
    (reflexivity || (vm_compute; discriminate)).
Defined.

(** C9 fails as stated: one frequency 9600 Hz at a sample rate of 4800 Hz
    gives a half-cycle count of 0, yet nothing is refused: the generator
    returns the empty pulse, and the program, whose pulses were built from
    the defaults, converts the file. *)
Lemma zero_half_cycle_not_refused :
  4800 / 9600 / 2 = 0
  /\ make_square_wave defaults 9600 4800 = Ok []
  /\ wrote (main {| ans_ONES_FREQ := 9600; ans_ZERO_FREQ := 800;
                    ans_FRAMERATE := 4800; ans_AMPLITUDE := 225;
                    ans_LEADER := 1; ans_STARTBIT := 0; ans_PARITY := 0;
                    ans_proceed := true |}
               [("HELLO"%string, lit "10 END")] boot)
       "HELLO.wav" 4800 6804 = true.
Proof.
  split; [reflexivity|]. split; [reflexivity|]. vm_compute. reflexivity.
Qed.

Lemma size_header_counts_data_witness :
  exists h0 h1 data,
    Create_BinData (lit "10 END") = Ok (h0 :: h1 :: data ++ [byte_group 0])
    /\ Z.of_nat (length data) = data_count (lit "10 END")
    /\ ByteGroup h0 /\ ByteGroup h1
    /\ be16 h0 h1 = data_count (lit "10 END") + 256.
Proof.
  apply (size_header_counts_data (lit "10 END")).
  - repeat constructor; vm_compute; intuition discriminate.
  - apply short_labels_check. vm_compute. reflexivity.
  - vm_compute. discriminate.
Defined.

Lemma long_line_scalar : Forall scalar (long_line 65).
Proof.
  apply Forall_app. split.
  - repeat constructor; vm_compute; intuition discriminate.
  - apply Forall_replicate. repeat constructor; vm_compute; intuition discriminate.
Qed.

(** C1 fails as stated: with 65280 data groups the header is the 17-digit
    numeral of 65536, cut after its eighth digit; the two groups read as
    a big-endian value give 32768. *)
Lemma size_header_overflow :
  data_count (long_line 65) + 256 = 65536
  /\ exists data,
       Create_BinData (long_line 65)
       = Ok (lit "10000000" :: lit "000000000" :: data)
       /\ be16 (lit "10000000") (lit "000000000") = 32768
       /\ be16 (lit "10000000") (lit "000000000")
          <> data_count (long_line 65) + 256.
Proof.
  assert (Hn : data_count (long_line 65) = 65280) by (vm_compute; reflexivity).
  split; [rewrite Hn; reflexivity|].
  rewrite Create_BinData_groups by apply long_line_scalar.
  unfold frame. rewrite data_count_length, Hn.
  eexists. split; [reflexivity|].
  split; [reflexivity|]. vm_compute. discriminate.
Qed.

Lemma records_in_line_order_witness :
  Forall scalar program
  /\ short_labels program
  /\ split LF program = [lit "10 PRINT HI"; lit "REM none"] ++ lit "20   END" :: []
  /\ label (lit "20   END") = Some 20
  /\ 20 <= 65535
  /\ exists h0 h1 pre post,
       Create_BinData program
       = Ok (h0 :: h1 :: pre
               ++ ([byte_group (20 / 256); byte_group 20]
                     ++ map byte_group
                          (utf8 (lstrip (re_digits (lit "20   END")).2 ++ [CR])))
               ++ post)
       /\ length pre
          = list_sum (map group_count [lit "10 PRINT HI"; lit "REM none"])
       /\ length post = S (list_sum (map group_count []))
       /\ be16 (byte_group (20 / 256)) (byte_group 20) = 20
       /\ encode_utf8 (lstrip (re_digits (lit "20   END")).2 ++ [CR])
          = Ok (utf8 (lstrip (re_digits (lit "20   END")).2 ++ [CR])).
Proof.
  assert (Hs : Forall scalar program)
    by (apply scalar_check; vm_compute; reflexivity).
  assert (Hsplit : split LF program
                   = [lit "10 PRINT HI"; lit "REM none"] ++ lit "20   END" :: [])
    by (vm_compute; reflexivity).
  assert (Hn : label (lit "20   END") = Some 20) by (vm_compute; reflexivity).
  assert (Hfit : 20 <= 65535) by lia.
  assert (Hshort : short_labels program)
    by (apply short_labels_check; vm_compute; reflexivity).
  split; [exact Hs|]. split; [exact Hshort|].
  split; [exact Hsplit|]. split; [exact Hn|].
  split; [exact Hfit|].
  exact (records_in_line_order program _ _ _ 20 Hs Hshort Hsplit Hn Hfit).
Defined.

(** C4 fails as stated: the line [65536 END] begins with a run of decimal
    digits, and its second label group has nine digits; the two are not
    the ByteGroups of a 16-bit label. *)
Lemma label_65536_is_not_two_ByteGroups :
  Create_BinData (lit "65536 END")
  = Ok [lit "00000001"; lit "00000110";
        lit "10000000"; lit "000000000";
        lit "01000101"; lit "01001110"; lit "01000100"; lit "00001101";
        lit "00000000"]
  /\ label (lit "65536 END") = Some 65536
  /\ ~ ByteGroup (lit "000000000")
  /\ flat_map spec_record (split LF (lit "65536 END"))
     = [lit "00000000"; lit "00000000";
        lit "01000101"; lit "01001110"; lit "01000100"; lit "00001101"].
Proof.
  split; [vm_compute; reflexivity|].
  split; [vm_compute; reflexivity|].
  split; [|vm_compute; reflexivity].
  intros [Hlen _]. vm_compute in Hlen. discriminate.
Qed.

Lemma wide_label_keeps_every_digit_witness :
  Forall scalar (lit "70000 REM")
  /\ short_labels (lit "70000 REM")
  /\ split LF (lit "70000 REM") = [] ++ lit "70000 REM" :: []
  /\ label (lit "70000 REM") = Some 70000
  /\ 65535 < 70000
  /\ exists h0 h1 pre g0 g1 post,
       Create_BinData (lit "70000 REM")
       = Ok (h0 :: h1 :: pre
               ++ ([g0; g1]
                     ++ map byte_group
                          (utf8 (lstrip (re_digits (lit "70000 REM")).2 ++ [CR])))
               ++ post)
       /\ length pre = list_sum (map group_count [])
       /\ length post = S (list_sum (map group_count []))
       /\ g0 ++ g1 = drop 2 (bin 70000)
       /\ length g0 = 8%nat /\ (8 < length g1)%nat
       /\ Forall binary (g0 ++ g1)
       /\ group_value (g0 ++ g1) = 70000
       /\ encode_utf8 (lstrip (re_digits (lit "70000 REM")).2 ++ [CR])
          = Ok (utf8 (lstrip (re_digits (lit "70000 REM")).2 ++ [CR])).
Proof.
  assert (Hs : Forall scalar (lit "70000 REM"))
    by (apply scalar_check; vm_compute; reflexivity).
  assert (Hshort : short_labels (lit "70000 REM"))
    by (apply short_labels_check; vm_compute; reflexivity).
  split; [exact Hs|]. split; [exact Hshort|].
  split; [vm_compute; reflexivity|].
  split; [vm_compute; reflexivity|].
  split; [lia|].
  apply (wide_label_keeps_every_digit (lit "70000 REM") [] (lit "70000 REM") []);
    [exact Hs | exact Hshort | vm_compute; reflexivity
    | vm_compute; reflexivity | lia].
Defined.

(** C8 fails as stated: the label 70000 is not cut to its low 16 bits
    (4464, the ByteGroups 00010001 and 01110000); the builder gives the
    first eight digits of its 17-digit numeral, then the other nine. *)
Lemma label_70000_is_not_truncated :
  Create_BinData (lit "70000")
  = Ok [lit "00000001"; lit "00000011";
        lit "10001000"; lit "101110000"; lit "00001101";
        lit "00000000"]
  /\ label (lit "70000") = Some 70000
  /\ [byte_group (70000 mod 65536 / 256); byte_group (70000 mod 65536)]
     = [lit "00010001"; lit "01110000"]
  /\ [lit "10001000"; lit "101110000"]
     <> [byte_group (70000 mod 65536 / 256); byte_group (70000 mod 65536)]
  /\ length (lit "101110000") = 9%nat.
Proof.
  split; [vm_compute; reflexivity|].
  split; [vm_compute; reflexivity|].
  split; [vm_compute; reflexivity|].
  split; [vm_compute; discriminate | reflexivity].
Qed.

Lemma all_groups_are_ByteGroups_witness :
  Forall scalar program /\ short_labels program /\ labels_fit program
  /\ data_count program + 256 <= 65535
  /\ exists out, Create_BinData program = Ok out /\ Forall ByteGroup out.
Proof.
  assert (Hs : Forall scalar program)
    by (apply scalar_check; vm_compute; reflexivity).
  assert (Hf : labels_fit program)
    by (apply labels_fit_check; vm_compute; reflexivity).
  assert (Hn : data_count program + 256 <= 65535)
    by (vm_compute; discriminate).
  assert (Hshort : short_labels program)
    by (apply short_labels_check; vm_compute; reflexivity).
  split; [exact Hs|]. split; [exact Hshort|].
  split; [exact Hf|]. split; [exact Hn|].
  exact (all_groups_are_ByteGroups program Hs Hshort Hf Hn).
Defined.

(** C10 fails as stated: one line labelled 1 with a body of 65278 bytes
    keeps every label within 16 bits, yet the second header group has
    nine digits. *)
Lemma small_labels_wide_header :
  labels_fit (long_line 66)
  /\ exists h0 h1 rest,
       Create_BinData (long_line 66) = Ok (h0 :: h1 :: rest)
       /\ h1 = lit "000000000"
       /\ ~ Forall ByteGroup (h0 :: h1 :: rest).
Proof.
  split; [apply labels_fit_check; vm_compute; reflexivity|].
  assert (Hs : Forall scalar (long_line 66))
    by (apply scalar_check; vm_compute; reflexivity).
  assert (Hn : data_count (long_line 66) = 65280) by (vm_compute; reflexivity).
  rewrite Create_BinData_groups by exact Hs.
  unfold frame. rewrite data_count_length, Hn.
  eexists _, _, _. split; [reflexivity|].
  split; [vm_compute; reflexivity|].
  intros Hall. apply Forall_cons in Hall as [_ Hall].
  apply Forall_cons in Hall as [[Hlen _] _]. vm_compute in Hlen. discriminate.
Qed.

Lemma unlabelled_lines_add_nothing_witness :
  Forall (fun l => LF ∉ l) ([lit "10 PRINT HI"] ++ lit "REM none" :: [lit "20   END"])
  /\ label (lit "REM none") = None
  /\ Create_BinData
       (join LF ([lit "10 PRINT HI"] ++ lit "REM none" :: [lit "20   END"]))
     = Create_BinData (join LF ([lit "10 PRINT HI"] ++ [lit "20   END"]))
  /\ Forall (fun l => label l = None) (split LF (lit "REM none"))
  /\ Create_BinData (lit "REM none")
     = Ok [lit "00000001"; lit "00000000"; lit "00000000"].
Proof.
  destruct unlabelled_lines_add_nothing as [HA [HB _]].
  assert (Hlf : Forall (fun l => LF ∉ l)
                  ([lit "10 PRINT HI"] ++ lit "REM none" :: [lit "20   END"])).
  { change ([lit "10 PRINT HI"] ++ lit "REM none" :: [lit "20   END"])
      with (split LF program). apply split_no_sep. }
  assert (Hl : label (lit "REM none") = None) by (vm_compute; reflexivity).
  assert (Hall : Forall (fun l => label l = None) (split LF (lit "REM none"))).
  { repeat constructor. }
  split; [exact Hlf|]. split; [exact Hl|].
  split; [exact (proj2 (HA _ _ _ Hlf Hl))|].
  split; [exact Hall | exact (HB _ Hall)].
Defined.

Lemma frame_is_ten_pulses_witness :
  ByteGroup (byte_group 65) /\ loaded module0 one0 zero0 [one0; zero0]
  /\ exists parity pulses,
       pulses = [negb (STARTBIT (vars module0) =? 0)]
                  ++ data_bits (group_value (byte_group 65)) ++ [parity]
       /\ length pulses = 10%nat
       /\ Encode_Data module0 (byte_group 65)
            {| store := [one0; zero0]; files := ∅ |}
          = Ok (length [one0; zero0],
                {| store := [one0; zero0] ++ [render one0 zero0 pulses];
                   files := ∅ |}).
Proof.
  split; [apply byte_group_ByteGroup|]. split; [exact loaded0|].
  exact (frame_is_ten_pulses module0 one0 zero0 [one0; zero0] ∅
           (byte_group 65) (byte_group_ByteGroup 65) loaded0).
Defined.

Lemma parity_relation_witness :
  0 <= 65 < 256 /\ loaded module0 one0 zero0 [one0; zero0]
  /\ exists parity,
       Encode_Data module0 (byte_group 65)
         {| store := [one0; zero0]; files := ∅ |}
       = Ok (length [one0; zero0],
             {| store := [one0; zero0]
                         ++ [render one0 zero0
                               (negb (STARTBIT (vars module0) =? 0)
                                  :: data_bits 65)
                             ++ pulse one0 zero0 parity];
                files := ∅ |})
       /\ (PARITY (vars module0) = 0 ->
           Z.odd (popcount (data_bits 65) + Z.b2z parity) = true)
       /\ (PARITY (vars module0) = 1 ->
           Z.even (popcount (data_bits 65) + Z.b2z parity) = true).
Proof.
  assert (Hv : 0 <= 65 < 256) by lia.
  split; [exact Hv|]. split; [exact loaded0|].
  exact (parity_relation module0 one0 zero0 [one0; zero0] ∅ 65 Hv loaded0).
Defined.

Lemma written_stream_witness :
  loaded module0 one0 zero0 [one0; zero0]
  /\ one0 <> []
  /\ 0 < FRAMERATE (vars module0)
  /\ 0 <= LEADER (vars module0)
  /\ Forall (Forall binary) no_records
  /\ fits_wav module0 one0 zero0 no_records
  /\ exists st',
       Write_Wav module0 "EMPTY.wav" no_records
         {| store := [one0; zero0]; files := ∅ |}
       = Ok (tt,
             {| store := [one0; zero0] ++ st';
                files :=
                  <[("EMPTY.wav")%string :=
                      {| nchannels := 1; sampwidth := 1;
                         framerate := FRAMERATE (vars module0);
                         frames :=
                           concat (repeat one0
                                     (Z.to_nat (leader_count module0 one0)))
                           ++ flat_map (frame_of module0 one0 zero0) no_records
                           ++ zero0 ++ zero0 ++ zero0 |}]> ∅ |}).
Proof.
  assert (H1 : one0 <> []) by discriminate.
  assert (Hr : 0 < FRAMERATE (vars module0)) by reflexivity.
  assert (Hs : 0 <= LEADER (vars module0)) by (vm_compute; discriminate).
  assert (Hd : Forall (Forall binary) no_records)
    by (apply binary_check; reflexivity).
  assert (Hw : fits_wav module0 one0 zero0 no_records)
    by (apply fits_wav_check; [vm_compute; discriminate | vm_compute; reflexivity]).
  split; [exact loaded0|]. split; [exact H1|]. split; [exact Hr|].
  split; [exact Hs|]. split; [exact Hd|]. split; [exact Hw|].
  exact (proj1 (written_stream module0 one0 zero0 [one0; zero0] ∅
                  "EMPTY.wav" no_records loaded0 H1 Hr Hs Hd Hw)).
Defined.

(** The two-line program of the specification's round-trip scenario:
    the header is 256 + 19, then the records of lines 10 and 20, then the
    terminator. *)
Example hello_binary_data :
  Create_BinData
    (lit "10 PRINT " ++ [34] ++ lit "HI" ++ [34] ++ [LF] ++ lit "20 END")
  = Ok (map byte_group
          [1; 19;
           0; 10; 80; 82; 73; 78; 84; 32; 34; 72; 73; 34; 13;
           0; 20; 69; 78; 68; 13;
           0]).
Proof. vm_compute. reflexivity. Qed.

Lemma square_wave_never_fails_witness :
  exists wave,
    make_square_wave
      {| FRAMERATE := 22050; ONES_FREQ := 2400; ZERO_FREQ := 800;
         AMPLITUDE := 255; CENTER := 128; LEADER := 14; PARITY := 0;
         STARTBIT := 0 |} (-300) 48000 = Ok wave
    /\ Forall (fun b => 1 <= b <= 255) wave.
Proof.
  apply square_wave_never_fails;
    [reflexivity | split; vm_compute; discriminate | discriminate
    | reflexivity | reflexivity].
Defined.

Lemma pulse_length_bounds_witness :
  exists wave,
    make_square_wave defaults 800 22050 = Ok wave
    /\ Z.of_nat (length wave) * 800 <= 22050
       < (Z.of_nat (length wave) + 2) * 800.
Proof.
  apply (pulse_length_bounds defaults 800 22050);
    (reflexivity || (vm_compute; discriminate)).
Defined.

Lemma Extract_Number_String_parts_witness :
  match Extract_Number_String (lit "20   END") with
  | Ok (None, code) =>
      code = lit "20   END"
      /\ forall c t, lit "20   END" = c :: t -> decimal c = None
  | Ok (Some n, code) =>
      exists ds ws tail,
        lit "20   END" = ds ++ ws ++ code ++ tail
        /\ ds <> [] /\ Forall (fun c => is_Some (decimal c)) ds
        /\ n = number ds /\ 0 <= n
        /\ Forall (fun c => isspace c = true) ws
        /\ (ws = [] -> forall c t, code ++ tail = c :: t -> decimal c = None)
        /\ (LF ∉ ws ++ code)
        /\ (forall c t, code = c :: t -> isspace c = false)
        /\ (tail = [] \/ exists t, tail = LF :: t)
  | Raise _ => False
  end.
Proof.
  apply (Extract_Number_String_parts (lit "20   END")).
  apply Nat.leb_le. vm_compute. reflexivity.
Defined.

Lemma the_builder_raises_only_on_bodies_witness :
  (forall e,
     Create_BinData program = Raise e ->
     e = UnicodeEncodeError
     /\ exists line, line ∈ split LF program /\ is_Some (label line)
                     /\ ~ Forall scalar (body line))
  /\ ((forall line, line ∈ split LF program -> is_Some (label line) ->
                    Forall scalar (body line)) ->
      exists out, Create_BinData program = Ok out).
Proof.
  apply (the_builder_raises_only_on_bodies program).
  apply short_labels_check. vm_compute. reflexivity.
Defined.

Lemma binary_data_shape_witness :
  exists h0 h1 data,
    [lit "00000001"; lit "00000011";
     lit "10001000"; lit "101110000"; lit "00001101";
     lit "00000000"]
    = h0 :: h1 :: data ++ [lit "00000000"]
    /\ Z.of_nat (length data) = data_count (lit "70000")
    /\ length h0 = 8%nat
    /\ group_value (h0 ++ h1) = data_count (lit "70000") + 256
    /\ Forall (fun g => Forall binary g /\ (8 <= length g)%nat)
         [lit "00000001"; lit "00000011";
          lit "10001000"; lit "101110000"; lit "00001101";
          lit "00000000"].
Proof.
  apply (binary_data_shape (lit "70000")). vm_compute. reflexivity.
Defined.

Lemma data_groups_read_back_witness :
  exists h0 h1 data,
    Create_BinData program = Ok (h0 :: h1 :: data ++ [lit "00000000"])
    /\ receive LabelHigh (map group_value data)
       = Some (map (fun e => (e.1, utf8 e.2)) (listing program)).
Proof.
  apply (data_groups_read_back program).
  - apply scalar_check. vm_compute. reflexivity.
  - apply not_elem_Forall.
    repeat (apply Forall_cons_2; [discriminate|]). apply Forall_nil_2.
  - apply labels_fit_check. vm_compute. reflexivity.
  - apply short_labels_check. vm_compute. reflexivity.
Defined.

Lemma written_samples_determine_ByteGroups_witness :
  exists st1 st2 w w',
    Write_Wav module0 "A.wav" [byte_group 65]
      {| store := [one0; zero0]; files := ∅ |}
    = Ok (tt, {| store := [one0; zero0] ++ st1;
                 files := <[("A.wav")%string := w]> ∅ |})
    /\ Write_Wav module0 "A.wav" [byte_group 66]
         {| store := [one0; zero0]; files := ∅ |}
       = Ok (tt, {| store := [one0; zero0] ++ st2;
                    files := <[("A.wav")%string := w']> ∅ |})
    /\ (frames w = frames w' -> [byte_group 65] = [byte_group 66]).
Proof.
  apply (written_samples_determine_ByteGroups module0 one0 zero0).
  - exact loaded0.
  - apply (square_not_prefix 16 240 4 13); [discriminate | lia | lia].
  - apply (square_not_prefix 16 240 13 4); [discriminate | lia | lia].
  - reflexivity.
  - vm_compute. discriminate.
  - repeat constructor; apply byte_group_ByteGroup.
  - repeat constructor; apply byte_group_ByteGroup.
  - apply fits_wav_check; [vm_compute; discriminate | vm_compute; reflexivity].
  - apply fits_wav_check; [vm_compute; discriminate | vm_compute; reflexivity].
Defined.

Lemma frame_length_witness :
  exists encoded,
    Encode_Data module0 (byte_group 65)
      {| store := [one0; zero0]; files := ∅ |}
    = Ok (length [one0; zero0],
          {| store := [one0; zero0] ++ [encoded]; files := ∅ |})
    /\ let ones :=
         Z.b2z (negb (STARTBIT (vars module0) =? 0))
         + popcount (map bit_of (byte_group 65))
         + Z.b2z (spec_parity (PARITY (vars module0))
                    (popcount (map bit_of (byte_group 65)))) in
       Z.of_nat (length encoded)
       = ones * Z.of_nat (length one0)
         + (Z.of_nat (length (byte_group 65)) + 2 - ones)
           * Z.of_nat (length zero0).
Proof.
  apply (frame_length module0 one0 zero0 [one0; zero0] ∅ (byte_group 65)).
  - exact loaded0.
  - apply byte_group_ByteGroup.
Defined.

Lemma square_pulses_decode_witness :
  exists one zero,
    make_square_wave defaults 2400 22050 = Ok one
    /\ make_square_wave defaults 800 22050 = Ok zero
    /\ forall bs bs', render one zero bs = render one zero bs' -> bs = bs'.
Proof.
  apply (square_pulses_decode defaults 2400 800 22050);
    (reflexivity || (vm_compute; discriminate)).
Defined.

Lemma equal_counts_lose_the_bits_witness :
  11025 / 2400 / 2 = 11025 / 2000 / 2
  /\ make_square_wave defaults 2400 11025 = make_square_wave defaults 2000 11025
  /\ forall w bs bs',
       length bs = length bs' -> render w w bs = render w w bs'.
Proof.
  split; [reflexivity|].
  apply (equal_counts_lose_the_bits defaults 2400 2000 11025);
    (reflexivity || (vm_compute; discriminate)).
Defined.

Lemma Encode_Data_on_digits_witness :
  Encode_Data module0 (lit "2019") {| store := [one0; zero0]; files := ∅ |}
  = Ok (length [one0; zero0],
        {| store :=
             [one0; zero0]
             ++ [render one0 zero0
                   (negb (STARTBIT (vars module0) =? 0)
                      :: map digit_bit (lit "2019")
                      ++ [spec_parity (PARITY (vars module0))
                            (popcount (map digit_bit (lit "2019")))])];
           files := ∅ |}).
Proof.
  apply (Encode_Data_on_digits module0 one0 zero0 [one0; zero0] ∅ (lit "2019")).
  - exact loaded0.
  - repeat apply Forall_cons_2; try apply Forall_nil_2;
      eexists; vm_compute; reflexivity.
Defined.

Lemma Encode_Data_not_a_digit_witness :
  Encode_Data module0 (lit "01" ++ 120 :: lit "1")
    {| store := [one0; zero0]; files := ∅ |}
  = Raise ValueError.
Proof.
  apply (Encode_Data_not_a_digit module0 one0 zero0 [one0; zero0] ∅
           (lit "01") 120 (lit "1")).
  - exact loaded0.
  - repeat apply Forall_cons_2; try apply Forall_nil_2;
      eexists; vm_compute; reflexivity.
  - reflexivity.
Defined.

Lemma empty_one_pulse_divides_by_zero_witness :
  Write_Wav module0 "EMPTY.wav" no_records
    {| store := [[]; zero0]; files := ∅ |}
  = Raise ZeroDivisionError.
Proof.
  apply (empty_one_pulse_divides_by_zero module0); reflexivity.
Defined.

Lemma bad_frame_rate_is_refused_witness :
  Write_Wav
    (configure module0
       {| ans_ONES_FREQ := 2400; ans_ZERO_FREQ := 800; ans_FRAMERATE := 0;
          ans_AMPLITUDE := 225; ans_LEADER := 14; ans_STARTBIT := 0;
          ans_PARITY := 0; ans_proceed := true |})
    "EMPTY.wav" no_records {| store := [one0; zero0]; files := ∅ |}
  = Raise WaveError.
Proof.
  apply bad_frame_rate_is_refused. vm_compute. discriminate.
Defined.

Lemma rewriting_gives_the_same_file_witness :
  exists written,
    (exists st1 st2,
       Write_Wav module0 "EMPTY.wav" no_records
         {| store := [one0; zero0]; files := ∅ |}
       = Ok (tt, {| store := [one0; zero0] ++ st1;
                    files := <[("EMPTY.wav")%string := written]> ∅ |})
       /\ Write_Wav module0 "EMPTY.wav" no_records
            {| store := [one0; zero0] ++ st1;
               files := <[("EMPTY.wav")%string := written]> ∅ |}
          = Ok (tt, {| store := ([one0; zero0] ++ st1) ++ st2;
                       files := <[("EMPTY.wav")%string := written]> ∅ |}))
    /\ (exists st1,
          Write_Wav module0 "EMPTY.wav" no_records
            {| store := [one0; zero0];
               files := <[("EMPTY.wav")%string :=
                            {| nchannels := 2; sampwidth := 2;
                               framerate := 44100; frames := [0; 0] |}]> ∅ |}
          = Ok (tt, {| store := [one0; zero0] ++ st1;
                       files := <[("EMPTY.wav")%string := written]> ∅ |}))
    /\ forall path, path <> ("EMPTY.wav")%string ->
         (<[("EMPTY.wav")%string := written]> (∅ : gmap string wave_file))
           !! path = (∅ : gmap string wave_file) !! path.
Proof.
  apply (rewriting_gives_the_same_file module0 one0 zero0).
  - exact loaded0.
  - discriminate.
  - reflexivity.
  - vm_compute. discriminate.
  - apply binary_check. reflexivity.
  - apply fits_wav_check; [vm_compute; discriminate | vm_compute; reflexivity].
Defined.

Lemma built_data_is_written_witness :
  exists Binary_Data st',
    Create_BinData (lit "70000 REM") = Ok Binary_Data
    /\ Forall (Forall binary) Binary_Data
    /\ Write_Wav module0 "WIDE.wav" Binary_Data
         {| store := [one0; zero0]; files := ∅ |}
       = Ok (tt,
             {| store := [one0; zero0] ++ st';
                files :=
                  <[("WIDE.wav")%string :=
                      {| nchannels := 1; sampwidth := 1;
                         framerate := FRAMERATE (vars module0);
                         frames := stream module0 one0 zero0 Binary_Data |}]>
                    ∅ |}).
Proof.
  apply (built_data_is_written module0 one0 zero0 [one0; zero0] ∅
           "WIDE.wav" (lit "70000 REM")).
  - exact loaded0.
  - discriminate.
  - reflexivity.
  - vm_compute. discriminate.
  - apply scalar_check. vm_compute. reflexivity.
  - apply short_labels_check. vm_compute. reflexivity.
  - apply fits_wav_check; [vm_compute; discriminate | vm_compute; reflexivity].
Defined.

(** The listing of the three-line program, and what a receiver reads in
    its data groups. *)
Example listing_program :
  listing program = [(10, lit "PRINT HI"); (20, lit "END")]
  /\ receive LabelHigh
       [0; 10; 80; 82; 73; 78; 84; 32; 72; 73; 13; 0; 20; 69; 78; 68; 13]
     = Some [(10, lit "PRINT HI"); (20, lit "END")].
Proof. split; vm_compute; reflexivity. Qed.

(** A lone surrogate after a label stops the builder; on a line without a
    label it is never encoded. *)
Example surrogate_in_a_body :
  Create_BinData (lit "10 " ++ [55296]) = Raise UnicodeEncodeError
  /\ Create_BinData (lit "REM " ++ [55296]) = Ok no_records.
Proof. split; vm_compute; reflexivity. Qed.

End Runs.
